(** * newsy: the classification-and-enrichment pipeline

    A shallow embedding of [process_diary.py] (entry parsing, date
    extraction, theme/keyword tagging, Bluesky content enrichment) and of
    the theme-summary operation of [summary_generator.py], with the
    properties of the natural-language specification stated over it.

    Conventions.
    - A Python [str] is a [string]; a character is a code point below 256
      (Latin-1), so [\d] is [0-9] and the white space of [str.strip] and
      [\s] is the set listed in [isspace].
    - Insertion-ordered dicts that are only iterated ([THEMES],
      [KEYWORD_PATTERNS], [theme_scores]) are association lists; the dict
      used as a store ([bluesky_content_cache]) is a [gmap].
    - What the interpreter and the standard library decide (the iteration
      order of a [set], [urlparse]) is a parameter, see [PyRuntime]. *)

From Stdlib Require Import ZArith Ascii String Permutation Sorted Lia DecimalString.
From stdpp Require Import gmap strings list fin_maps.

Local Open Scope string_scope.

(** ** Characters and strings *)

Module Str.

Definition code (c : ascii) : nat := nat_of_ascii c.

(** [\d] on code points below 256. *)
Definition isdigit (c : ascii) : bool :=
  (48 <=? code c)%nat && (code c <=? 57)%nat.

(** [str.isspace] on code points below 256: TAB..CR, FS..US, SPACE, NEL,
    NBSP. *)
Definition isspace (c : ascii) : bool :=
  ((9 <=? code c)%nat && (code c <=? 13)%nat)
  || ((28 <=? code c)%nat && (code c <=? 32)%nat)
  || (code c =? 133)%nat || (code c =? 160)%nat.

(** [str.lower] on one code point: A-Z and the upper-case letters of
    Latin-1 (all of 0xC0..0xDE but the multiplication sign 0xD7). *)
Definition lower_char (c : ascii) : ascii :=
  let n := code c in
  if ((65 <=? n)%nat && (n <=? 90)%nat)
     || ((192 <=? n)%nat && (n <=? 222)%nat && negb (n =? 215)%nat)
  then ascii_of_nat (n + 32) else c.

Fixpoint lower (s : string) : string :=
  match s with
  | "" => ""
  | String c r => String (lower_char c) (lower r)
  end.

(** [s.startswith(p)], returning the rest of [s]. *)
Fixpoint strip_prefix (p s : string) : option string :=
  match p, s with
  | "", _ => Some s
  | String a p', String b s' => if Ascii.eqb a b then strip_prefix p' s' else None
  | String _ _, "" => None
  end.

(** [p in s] for two strings: [p] occurs as a contiguous substring. *)
Fixpoint contains (p s : string) : bool :=
  match strip_prefix p s with
  | Some _ => true
  | None => match s with
            | "" => false
            | String _ s' => contains p s'
            end
  end.

(** Every character of [s] satisfies [P]. *)
Fixpoint all_chars (P : ascii -> bool) (s : string) : bool :=
  match s with
  | "" => true
  | String c r => P c && all_chars P r
  end.

(** [s[:n]]. *)
Fixpoint take (n : nat) (s : string) : string :=
  match n, s with
  | S n', String c r => String c (take n' r)
  | _, _ => ""
  end.

Fixpoint rev_acc (s acc : string) : string :=
  match s with
  | "" => acc
  | String c r => rev_acc r (String c acc)
  end.

Definition rev (s : string) : string := rev_acc s "".

(** [s.lstrip(chars)] with the set [chars] given as a predicate. *)
Fixpoint lstrip_by (P : ascii -> bool) (s : string) : string :=
  match s with
  | "" => ""
  | String c r => if P c then lstrip_by P r else s
  end.

Definition rstrip_by (P : ascii -> bool) (s : string) : string :=
  rev (lstrip_by P (rev s)).

(** [s.strip()]. *)
Definition strip (s : string) : string := rstrip_by isspace (lstrip_by isspace s).

(** [sep.join(l)]. *)
Fixpoint join (sep : string) (l : list string) : string :=
  match l with
  | [] => ""
  | [x] => x
  | x :: r => x +:+ sep +:+ join sep r
  end.

(** [str(n)] for a non-negative integer. *)
Definition of_nat (n : nat) : string := NilZero.string_of_uint (Nat.to_uint n).

(** [int(s)] for a string of ASCII digits. *)
Fixpoint int_acc (s : string) (acc : Z) : Z :=
  match s with
  | "" => acc
  | String c r => int_acc r (10 * acc + Z.of_nat (code c - 48))
  end.

Definition int (s : string) : Z := int_acc s 0.

Fixpoint zeros (n : nat) : string :=
  match n with
  | O => ""
  | S n' => String "0" (zeros n')
  end.

(** [f"{n:0wd}"] for a non-negative integer: at least [w] digits, padded
    with zeros on the left. *)
Definition zfill (w : nat) (n : Z) : string :=
  let d := NilZero.string_of_uint (N.to_uint (Z.to_N n)) in
  zeros (w - String.length d) +:+ d.

(** The double quote, code point 34. *)
Definition dquote : string := String (ascii_of_nat 34) "".

End Str.

(** ** A backtracking matcher for the regular expressions of the source

    Each combinator takes the continuation that matches the rest of the
    pattern, so a greedy repetition gives characters back when the rest
    fails, as [re] does. *)

Module Re.

Section Combinators.
Context {A : Type}.

(** A literal. *)
Definition lit (l : string) (k : string -> option A) (s : string) : option A :=
  match Str.strip_prefix l s with
  | Some r => k r
  | None => None
  end.

(** Greedy [c*] over a character class, [acc] the text matched so far;
    the continuation receives the matched text and the rest. *)
Fixpoint star_from (P : ascii -> bool) (k : string -> string -> option A)
    (acc s : string) : option A :=
  match s with
  | String c r =>
      if P c then
        match star_from P k (acc +:+ String c "") r with
        | Some x => Some x
        | None => k acc s
        end
      else k acc s
  | "" => k acc s
  end.

Definition star (P : ascii -> bool) (k : string -> string -> option A) : string -> option A :=
  star_from P k "".

(** Greedy [c+]. *)
Definition plus (P : ascii -> bool) (k : string -> string -> option A) (s : string) : option A :=
  match s with
  | String c r => if P c then star_from P k (String c "") r else None
  | "" => None
  end.

(** [c{n}]. *)
Fixpoint exactly_from (n : nat) (P : ascii -> bool) (k : string -> string -> option A)
    (acc s : string) : option A :=
  match n with
  | O => k acc s
  | S n' =>
      match s with
      | String c r => if P c then exactly_from n' P k (acc +:+ String c "") r else None
      | "" => None
      end
  end.

Definition exactly (n : nat) (P : ascii -> bool) (k : string -> string -> option A) : string -> option A :=
  exactly_from n P k "".

(** Greedy [c{1,2}]: two characters first, then one. *)
Definition one_or_two (P : ascii -> bool) (k : string -> string -> option A) (s : string) : option A :=
  match s with
  | String a r =>
      if P a then
        match r with
        | String b r' =>
            if P b then
              match k (String a (String b "")) r' with
              | Some x => Some x
              | None => k (String a "") r
              end
            else k (String a "") r
        | "" => k (String a "") r
        end
      else None
  | "" => None
  end.

(** [re.match]: the pattern anchored at the start of [s]. *)
Definition match_ (p : string -> option A) (s : string) : option A := p s.

(** [re.search]: the leftmost position of [s] at which the pattern
    matches. *)
Fixpoint search (p : string -> option A) (s : string) : option A :=
  match p s with
  | Some g => Some g
  | None => match s with
            | "" => None
            | String _ s' => search p s'
            end
  end.
End Combinators.

End Re.

(** ** What the interpreter and the standard library decide *)

(** [list(set(l))] lists the distinct elements of [l] in the iteration
    order of the hash set, which depends on the string hashes of the run;
    [urlparse(url).netloc] is the standard library's ([None] when it raises
    [ValueError]). *)
Class PyRuntime := {
  set_iter : list string -> list string;
  set_iter_NoDup : forall l, NoDup (set_iter l);
  set_iter_elem : forall l x, x ∈ set_iter l <-> x ∈ l;
  urlparse_netloc : string -> option string
}.

Module Urllib.

Definition isalpha (c : ascii) : bool :=
  let n := Str.code c in
  ((65 <=? n)%nat && (n <=? 90)%nat) || ((97 <=? n)%nat && (n <=? 122)%nat).

(** The characters of a URL scheme: letters, digits, [+], [-], [.]. *)
Definition scheme_char (c : ascii) : bool :=
  let n := Str.code c in
  isalpha c || Str.isdigit c || (n =? 43)%nat || (n =? 45)%nat || (n =? 46)%nat.

(** Splits [s] at the first character satisfying [P]. *)
Fixpoint break (P : ascii -> bool) (s : string) : string * string :=
  match s with
  | "" => ("", "")
  | String c r => if P c then ("", s)
                  else let '(a, b) := break P r in (String c a, b)
  end.

Fixpoint remove_chars (P : ascii -> bool) (s : string) : string :=
  match s with
  | "" => ""
  | String c r => if P c then remove_chars P r else String c (remove_chars P r)
  end.

(** After a scheme [letter (letter|digit|+|-|.)* :], the rest of the URL. *)
Definition drop_scheme (u : string) : string :=
  match break (fun c => (Str.code c =? 58)%nat) u with
  | (String c0 sch, String _ rest) =>
      if isalpha c0 && Str.all_chars scheme_char sch then rest else u
  | _ => u
  end.

(** [s.split(chr(n))]. *)
Fixpoint split_on (n : nat) (s : string) : list string :=
  match s with
  | "" => [""]
  | String c r =>
      if (Str.code c =? n)%nat then "" :: split_on n r
      else match split_on n r with
           | x :: xs => String c x :: xs
           | [] => [String c ""]
           end
  end.

(** [s.partition(chr(n))]: what precedes the first [chr(n)], whether there
    is one, and what follows it. *)
Definition partition_on (n : nat) (s : string) : string * bool * string :=
  match break (fun c => (Str.code c =? n)%nat) s with
  | (before, String _ after) => (before, true, after)
  | (before, "") => (before, false, "")
  end.

Definition ishex (c : ascii) : bool :=
  let n := Str.code c in
  Str.isdigit c || ((65 <=? n)%nat && (n <=? 70)%nat) || ((97 <=? n)%nat && (n <=? 102)%nat).

Definition is_empty (s : string) : bool :=
  match s with
  | "" => true
  | String _ _ => false
  end.

(** [_parse_octet] does not raise: one to three digits, no leading zero
    but in [0] itself, at most 255. *)
Definition valid_octet (s : string) : bool :=
  match s with
  | "" => false
  | String c r =>
      Str.all_chars Str.isdigit s
      && (String.length s <=? 3)%nat
      && (is_empty r || negb (Str.code c =? 48)%nat)
      && (Str.int s <=? 255)%Z
  end.

(** [IPv4Address(s)] does not raise. *)
Definition valid_ipv4 (s : string) : bool :=
  negb (Str.contains "/" s)
  && negb (is_empty s)
  && (let octets := split_on 46 s in
      (length octets =? 4)%nat && forallb valid_octet octets).

(** [_parse_hextet] does not raise: one to four hexadecimal digits. *)
Definition valid_hextet (s : string) : bool :=
  Str.all_chars ishex s && (String.length s <=? 4)%nat && negb (is_empty s).

(** The positions from 1 to [len(parts) - 2] that hold an empty part. *)
Definition empty_middles (parts : list string) : list nat :=
  List.filter (fun i => is_empty (nth i parts "x")) (seq 1 (length parts - 2)).

(** [IPv6Address._ip_int_from_string(ip_str)] does not raise. The two
    hextets that replace a dotted suffix are always well formed, so they
    stand here as [0]. *)
Definition valid_ipv6_digits (ip_str : string) : bool :=
  if is_empty ip_str then false
  else
    let parts := split_on 58 ip_str in
    if (length parts <? 3)%nat then false
    else
      let suffix := List.last parts "" in
      let converted :=
        if Str.contains "." suffix
        then if valid_ipv4 suffix then Some (removelast parts ++ ["0"; "0"])%list else None
        else Some parts in
      match converted with
      | None => false
      | Some parts =>
          let n := length parts in
          if (9 <? n)%nat then false
          else
            match empty_middles parts with
            | _ :: _ :: _ => false
            | [skip_index] =>
                let leading := is_empty (nth 0 parts "x") in
                let trailing := is_empty (List.last parts "x") in
                let parts_hi := if leading then (skip_index - 1)%nat else skip_index in
                let parts_lo := if trailing then (n - skip_index - 1 - 1)%nat
                                else (n - skip_index - 1)%nat in
                if leading && negb (parts_hi =? 0)%nat then false
                else if trailing && negb (parts_lo =? 0)%nat then false
                else if (8 <? parts_hi + parts_lo + 1)%nat then false
                else forallb valid_hextet (firstn parts_hi parts)
                     && forallb valid_hextet (skipn (n - parts_lo) parts)
            | [] =>
                (n =? 8)%nat
                && negb (is_empty (nth 0 parts "x"))
                && negb (is_empty (List.last parts "x"))
                && forallb valid_hextet parts
            end
      end.

(** [IPv6Address(s)] does not raise: no [/], a scope id after [%] that is
    neither empty nor holds another [%], and a well-formed address. *)
Definition valid_ipv6 (s : string) : bool :=
  negb (Str.contains "/" s)
  && (let '(addr, sep, scope_id) := partition_on 37 s in
      (negb sep || (negb (is_empty scope_id) && negb (Str.contains "%" scope_id)))
      && valid_ipv6_digits addr).

(** The pattern [\Av[a-fA-F0-9]+\..+\Z] matches. *)
Definition ipvfuture (hostname : string) : bool :=
  match Re.lit "v" (Re.plus ishex (fun _ =>
        Re.lit "." (Re.plus (fun c => negb (Str.code c =? 10)%nat) (fun _ rest =>
        if is_empty rest then Some tt else None)))) hostname with
  | Some _ => true
  | None => false
  end.

(** [s.startswith(p)]. *)
Definition startswith (p s : string) : bool :=
  match Str.strip_prefix p s with
  | Some _ => true
  | None => false
  end.

(** [_check_bracketed_host(hostname)] does not raise. *)
Definition check_bracketed_host (hostname : string) : bool :=
  if startswith "v" hostname then ipvfuture hostname
  else negb (valid_ipv4 hostname) && valid_ipv6 hostname.

(** [_check_bracketed_netloc(netloc)] does not raise. *)
Definition check_bracketed_netloc (netloc : string) : bool :=
  let hostname_and_port := List.last (split_on 64 netloc) "" in
  let '(before_bracket, have_open_br, bracketed) := partition_on 91 hostname_and_port in
  if have_open_br then
    if negb (is_empty before_bracket) then false
    else
      let '(hostname, _, port) := partition_on 93 bracketed in
      if negb (is_empty port) && negb (startswith ":" port) then false
      else check_bracketed_host hostname
  else
    let '(hostname, _, _) := partition_on 58 hostname_and_port in
    check_bracketed_host hostname.

(** [urlsplit(url).netloc]: leading C0 controls and spaces and every TAB,
    CR and LF are removed, the scheme is split off, and after [//] the
    authority runs to the first of [/], [?], [#]. A netloc with one square
    bracket and not the other is refused, and so is one with both unless
    the host passes the check of bracketed hosts. (On code points below 256
    the check of the normalised netloc never raises.) *)
Definition netloc (url : string) : option string :=
  let u := Str.lstrip_by (fun c => (Str.code c <=? 32)%nat) url in
  let u := remove_chars (fun c => let n := Str.code c in
                                  (n =? 9)%nat || (n =? 10)%nat || (n =? 13)%nat) u in
  match Str.strip_prefix "//" (drop_scheme u) with
  | Some r =>
      let host := fst (break (fun c => let n := Str.code c in
                                       (n =? 47)%nat || (n =? 63)%nat || (n =? 35)%nat) r) in
      if xorb (Str.contains "[" host) (Str.contains "]" host) then None
      else if Str.contains "[" host && negb (check_bracketed_netloc host) then None
      else Some host
  | None => Some ""
  end.

End Urllib.

(** A runtime to compute with: sets iterate in insertion order. *)
#[export] Program Instance reference_runtime : PyRuntime := {|
  set_iter := remove_dups;
  urlparse_netloc := Urllib.netloc
|}.
Next Obligation. intros l. apply NoDup_remove_dups. Qed.
Next Obligation. intros l x. apply elem_of_remove_dups. Qed.

(** ** process_diary.py: the data model *)

(** [THEMES], in declaration order. *)
Definition THEMES : list (string * list string) := [
  ("science", ["nsf"; "nasa"; "research"; "climate"; "weather"; "scientist"]);
  ("health", ["cdc"; "fda"; "nih"; "vaccine"; "covid"; "pandemic"; "health"; "medical"; "hospital"]);
  ("education", ["education"; "school"; "university"; "college"; "student"; "teacher"; "harvard"; "columbia"]);
  ("environment", ["epa"; "environment"; "pollution"; "clean"; "toxic"; "waste"; "water"; "air"]);
  ("civil-society", ["dei"; "diversity"; "equity"; "inclusion"; "civil-rights"; "voting"; "democracy"]);
  ("human-rights", ["lgbtq"; "transgender"; "discrimination"; "religious"; "freedom"; "abortion"]);
  ("government", ["federal"; "employee"; "workforce"; "doge"; "efficiency"; "layoff"; "resign"]);
  ("justice", ["fbi"; "doj"; "court"; "judge"; "attorney"; "prosecutor"; "investigation"]);
  ("immigration", ["ice"; "deportation"; "immigrant"; "refugee"; "border"; "asylum"; "visa"]);
  ("trade", ["tariff"; "trade"; "import"; "export"; "nafta"; "china"]);
  ("economy", ["tax"; "budget"; "debt"; "inflation"; "crypto"; "bitcoin"; "stock"; "economy"]);
  ("foreign-affairs", ["ukraine"; "russia"; "israel"; "palestine"; "nato"; "china"; "foreign"])
].

(** [KEYWORD_PATTERNS], in declaration order. *)
Definition KEYWORD_PATTERNS : list (string * list string) := [
  ("doge", ["doge"; "efficiency"]);
  ("fbi", ["fbi"; "federal bureau"]);
  ("ice", ["ice"; "immigration enforcement"]);
  ("epa", ["epa"; "environmental protection"]);
  ("cdc", ["cdc"; "disease control"]);
  ("nasa", ["nasa"; "space"]);
  ("nsf", ["nsf"; "national science foundation"]);
  ("nih", ["nih"; "health institute"]);
  ("supreme-court", ["supreme court"; "scotus"]);
  ("tariffs", ["tariff"]);
  ("ukraine", ["ukraine"; "zelensky"]);
  ("russia", ["russia"; "putin"]);
  ("israel", ["israel"; "gaza"; "palestine"]);
  ("musk", ["musk"; "elon"]);
  ("rfk-jr", ["rfk"; "kennedy jr"]);
  ("hegseth", ["hegseth"]);
  ("harvard", ["harvard"]);
  ("columbia", ["columbia university"]);
  ("voice-of-america", ["voice of america"; "voa"]);
  ("peace-corps", ["peace corps"]);
  ("social-security", ["social security"; "ssa"]);
  ("veterans", ["veteran"; "va "]);
  ("medicare", ["medicare"; "medicaid"]);
  ("lgbt", ["lgbt"; "transgender"; "gay"; "lesbian"]);
  ("dei", ["dei"; "diversity"; "equity"; "inclusion"]);
  ("climate", ["climate"; "carbon"; "emission"]);
  ("covid", ["covid"; "coronavirus"; "pandemic"]);
  ("abortion", ["abortion"; "reproductive"]);
  ("crypto", ["crypto"; "bitcoin"; "digital currency"])
].

(** [NewsEntry]; [__post_init__] turns absent [themes] and [keywords] into
    empty lists. *)
Record NewsEntry := mkNewsEntry {
  id : nat;
  url : string;
  title : string;
  date : option string;
  themes : list string;
  keywords : list string;
  content_snippet : option string
}.

Definition set_themes (e : NewsEntry) (t : list string) : NewsEntry :=
  mkNewsEntry (id e) (url e) (title e) (date e) t (keywords e) (content_snippet e).

Definition set_keywords (e : NewsEntry) (k : list string) : NewsEntry :=
  mkNewsEntry (id e) (url e) (title e) (date e) (themes e) k (content_snippet e).

Definition set_content_snippet (e : NewsEntry) (c : option string) : NewsEntry :=
  mkNewsEntry (id e) (url e) (title e) (date e) (themes e) (keywords e) c.

(** The exceptions that leave the functions modelled here. *)
Inductive exn := ValueError | KeyError (key : string).

Inductive result (A : Type) := Ok (a : A) | Raise (e : exn).
Arguments Ok {A} a.
Arguments Raise {A} e.

(** ** DiaryProcessor.extract_date *)

Definition date_groups : Type := string * string * string.

(** [/(\d{4})/(\d{1,2})/(\d{1,2})/] at the start of [s]. *)
Definition pattern_slashes : string -> option date_groups :=
  Re.lit "/" (Re.exactly 4 Str.isdigit (fun y =>
  Re.lit "/" (Re.one_or_two Str.isdigit (fun m =>
  Re.lit "/" (Re.one_or_two Str.isdigit (fun d =>
  Re.lit "/" (fun _ => Some (y, m, d)))))))).

(** [/(\d{4})-(\d{2})-(\d{2})] at the start of [s]. *)
Definition pattern_dashes : string -> option date_groups :=
  Re.lit "/" (Re.exactly 4 Str.isdigit (fun y =>
  Re.lit "-" (Re.exactly 2 Str.isdigit (fun m =>
  Re.lit "-" (Re.exactly 2 Str.isdigit (fun d _ => Some (y, m, d))))))).

(** [(\d{4})(\d{2})(\d{2})] at the start of [s]. *)
Definition pattern_compact : string -> option date_groups :=
  Re.exactly 4 Str.isdigit (fun y =>
  Re.exactly 2 Str.isdigit (fun m =>
  Re.exactly 2 Str.isdigit (fun d _ => Some (y, m, d)))).

Definition date_patterns : list (string -> option date_groups) :=
  [pattern_slashes; pattern_dashes; pattern_compact].

(** The test on year, month and day. *)
Definition plausible (year month day : Z) : bool :=
  (2024 <=? year)%Z && (year <=? 2026)%Z
  && (1 <=? month)%Z && (month <=? 12)%Z
  && (1 <=? day)%Z && (day <=? 31)%Z.

(** [f"{year:04d}-{month:02d}-{day:02d}"]. *)
Definition format_date (year month day : Z) : string :=
  Str.zfill 4 year +:+ "-" +:+ Str.zfill 2 month +:+ "-" +:+ Str.zfill 2 day.

(** The loop over the patterns: a pattern whose leftmost match fails the
    test leaves the [if] without returning, and the loop goes on. [int] of
    a group of digits does not raise, so the [except] branch is never
    taken. *)
Fixpoint extract_date_from (patterns : list (string -> option date_groups))
    (url : string) : option string :=
  match patterns with
  | [] => None
  | pattern :: rest =>
      match Re.search pattern url with
      | Some (y, m, d) =>
          let year := Str.int y in
          let month := Str.int m in
          let day := Str.int d in
          if plausible year month day then Some (format_date year month day)
          else extract_date_from rest url
      | None => extract_date_from rest url
      end
  end.

Definition extract_date (url : string) : option string :=
  extract_date_from date_patterns url.

(** ** DiaryProcessor.parse_input_file *)

Definition not_char (n : nat) (c : ascii) : bool := negb (Str.code c =? n)%nat.

(** The pattern [^\d+\.\s*<a href=Q([^Q]+)Q>([^<]+)</a>], where Q stands for
    the double quote, giving the two groups. *)
Definition line_pattern : string -> option (string * string) :=
  Re.plus Str.isdigit (fun _ =>
  Re.lit "." (
  Re.star Str.isspace (fun _ =>
  Re.lit ("<a href=" +:+ Str.dquote) (
  Re.plus (not_char 34) (fun u =>
  Re.lit (Str.dquote +:+ ">") (
  Re.plus (not_char 60) (fun t =>
  Re.lit "</a>" (fun _ => Some (u, t))))))))).

(** [list(enumerate(lines, start))]. *)
Fixpoint enumerate {A : Type} (start : nat) (l : list A) : list (nat * A) :=
  match l with
  | [] => []
  | x :: r => (start, x) :: enumerate (S start) r
  end.

(** One turn of the loop over the numbered lines: a line that matches
    appends an entry whose [id] is the number of the line. *)
Definition parse_step (entries : list NewsEntry) (il : nat * string) : list NewsEntry :=
  let '(i, line) := il in
  match Re.match_ line_pattern (Str.strip line) with
  | Some (u, t) => entries ++ [mkNewsEntry i u t (extract_date u) [] [] None]
  | None => entries
  end.

(** [parse_input_file] on the list [f.readlines()] gives. *)
Definition parse_input_file (lines : list string) : list NewsEntry :=
  fold_left parse_step (enumerate 1 lines) [].

(** ** DiaryProcessor.tag_entry *)

(** [sum(...)] over a list of numbers: the running total from 0. *)
Definition py_sum (l : list nat) : nat := fold_left Nat.add l 0.

(** [d[k] = v] on an insertion-ordered dict: a present key keeps its
    place, a new one goes to the end. *)
Fixpoint dict_set {V : Type} (d : list (string * V)) (k : string) (v : V) : list (string * V) :=
  match d with
  | [] => [(k, v)]
  | (k', v') :: r => if String.eqb k' k then (k, v) :: r else (k', v') :: dict_set r k v
  end.

(** [d[k]], [None] for a missing key. *)
Fixpoint dict_get {V : Type} (d : list (string * V)) (k : string) : option V :=
  match d with
  | [] => None
  | (k', v') :: r => if String.eqb k' k then Some v' else dict_get r k
  end.

(** [sum(1 for pattern in patterns if pattern in text)]. *)
Definition theme_score (text : string) (patterns : list string) : nat :=
  py_sum (map (fun _ => 1) (List.filter (fun pattern => Str.contains pattern text) patterns)).

(** The loop that fills [theme_scores], for any scoring function. *)
Definition score_themes (score : list string -> nat) : list (string * nat) :=
  fold_left (fun theme_scores tp =>
               let '(theme, patterns) := tp in
               if (0 <? score patterns)%nat then dict_set theme_scores theme (score patterns)
               else theme_scores)
            THEMES [].

(** Where [x] goes among items already in descending order of [key]:
    before the first item whose key is not greater, so that [x], which
    came first, stays ahead of the items it ties with. *)
Fixpoint insert_desc {A : Type} (key : A -> nat) (x : A) (l : list A) : list A :=
  match l with
  | [] => [x]
  | y :: r => if (key x <? key y)%nat then y :: insert_desc key x r else x :: l
  end.

(** [sorted(l, key=key, reverse=True)]: the sort is stable, also under
    [reverse], so items with equal keys keep their order. *)
Fixpoint sorted_desc {A : Type} (key : A -> nat) (l : list A) : list A :=
  match l with
  | [] => []
  | x :: r => insert_desc key x (sorted_desc key r)
  end.

(** [[theme for theme, _ in sorted_themes[:2]]]. *)
Definition top_themes (theme_scores : list (string * nat)) : list string :=
  map fst (take 2 (sorted_desc snd theme_scores)).

(** The inner loop over the patterns of one keyword, left by [break] at
    the first pattern found in the text. *)
Fixpoint any_pattern_in (text : string) (patterns : list string) : bool :=
  match patterns with
  | [] => false
  | pattern :: r => if Str.contains pattern text then true else any_pattern_in text r
  end.

(** The loop that fills [keyword_matches]. *)
Definition keyword_matches (text : string) : list string :=
  fold_left (fun (matches : list string) kp =>
               let '(keyword, patterns) := kp in
               if any_pattern_in text patterns then (matches ++ [keyword])%list else matches)
            KEYWORD_PATTERNS [].

Section Tagging.
Context `{PyRuntime}.

(** [list(set(keyword_matches))[:3]]. *)
Definition top_keywords (text : string) : list string :=
  take 3 (set_iter (keyword_matches text)).

(** The default theme, from the domain of the URL. *)
Definition default_themes (domain : string) : list string :=
  if Str.contains "supreme" domain || Str.contains "scotus" domain then ["justice"]
  else if existsb (fun gov => Str.contains gov domain) [".gov"; "whitehouse"] then ["government"]
  else ["government"].

(** [tag_entry]: the entry after the call, or the exception of
    [urlparse], which is only called when no theme scored. *)
Definition tag_entry (entry : NewsEntry) : result NewsEntry :=
  let text := Str.lower (url entry +:+ " " +:+ title entry) in
  let theme_scores := score_themes (theme_score text) in
  let entry := set_themes entry (top_themes theme_scores) in
  let entry := set_keywords entry (top_keywords text) in
  match themes entry with
  | [] =>
      match urlparse_netloc (url entry) with
      | Some domain => Ok (set_themes entry (default_themes domain))
      | None => Raise ValueError
      end
  | _ => Ok entry
  end.

(** ** DiaryProcessor.tag_entry_with_content *)

(** [sum(2 if pattern in content.lower() else 1 for pattern in patterns
    if pattern in combined_text)]. *)
Definition content_score (combined_text content : string) (patterns : list string) : nat :=
  py_sum (map (fun pattern => if Str.contains pattern (Str.lower content) then 2 else 1)
              (List.filter (fun pattern => Str.contains pattern combined_text) patterns)).

Definition tag_entry_with_content (entry : NewsEntry) (content : string) : NewsEntry :=
  let combined_text :=
    Str.lower (url entry +:+ " " +:+ title entry +:+ " " +:+ content) in
  let theme_scores := score_themes (content_score combined_text content) in
  let entry := set_themes entry (top_themes theme_scores) in
  set_keywords entry (top_keywords combined_text).

End Tagging.

(** ** DiaryProcessor.fetch_bluesky_content *)

(** What the code reads of an element found by [select_one]: its tag
    name, [get('content')] and [get_text()]. *)
Record element := mkElement {
  name : string;
  attr_content : option string;
  get_text : string
}.

(** A parsed page, as [select_one] sees it: the first element matching a
    selector, if any. An element found is true whatever its text. *)
Definition soup : Type := string -> option element.

(** What [session.get(url, timeout=10)] and reading the body come to:
    an exception (timeout, connection or decoding error), or a response
    with its status and page. *)
Inductive http_outcome := Failed | Response (status : Z) (page : soup).

Definition content_selectors : list string := [
  "div[data-testid=" +:+ Str.dquote +:+ "postText" +:+ Str.dquote +:+ "]";
  "div.post-content";
  "div[class*=" +:+ Str.dquote +:+ "post" +:+ Str.dquote +:+ "]";
  "meta[property=" +:+ Str.dquote +:+ "og:description" +:+ Str.dquote +:+ "]"
].

(** The loop over the selectors stops at the first element found and
    takes its content: [None] when no selector finds an element,
    [Some None] when the element is a [meta] without a [content]
    attribute. *)
Fixpoint select_content (selectors : list string) (page : soup) : option (option string) :=
  match selectors with
  | [] => None
  | selector :: r =>
      match page selector with
      | Some el =>
          Some (if String.eqb (name el) "meta" then attr_content el else Some (get_text el))
      | None => select_content r page
      end
  end.

(** The requests sent to the network. *)
Inductive io_event := Get (url : string).

(** [fetch_bluesky_content]: what is returned, the cache afterwards and the
    requests sent. [content[:500]] on an absent [content] raises inside the
    [try], and the handler returns [None] like the other failures. *)
Definition fetch_bluesky_content (outcome : http_outcome) (url : string)
    (cache : gmap string string) : option string * gmap string string * list io_event :=
  match cache !! url with
  | Some cached => (Some cached, cache, [])
  | None =>
      match outcome with
      | Failed => (None, cache, [Get url])
      | Response status page =>
          if (status =? 200)%Z then
            match select_content content_selectors page with
            | Some (Some content) =>
                (Some (Str.take 500 content), <[url := Str.take 500 content]> cache, [Get url])
            | Some None => (None, cache, [Get url])
            | None => (None, cache, [Get url])
            end
          else (None, cache, [Get url])
      end
  end.

(** ** DiaryProcessor.process_bluesky_entries *)

Record DiaryProcessor := mkDiaryProcessor {
  entries : list NewsEntry;
  bluesky_content_cache : gmap string string
}.

Definition is_bluesky (e : NewsEntry) : bool := Str.contains "bsky.app" (url e).

(** [bluesky_entries] holds references to objects of [self.entries]; an
    object is named here by its index in [self.entries]. *)
Fixpoint bluesky_from (i : nat) (l : list NewsEntry) : list nat :=
  match l with
  | [] => []
  | e :: r => if is_bluesky e then i :: bluesky_from (S i) r else bluesky_from (S i) r
  end.

Definition bluesky_entries (l : list NewsEntry) : list nat := bluesky_from 0 l.

(** [asyncio.gather] over one task per target. Every task tests the cache
    when it starts, before any task has come back from the network and
    written to it, so each task runs [fetch_bluesky_content] on the cache
    the phase started with; the results come back in task order. The
    writes are merged in task order. *)
Fixpoint gather_from (net : nat -> http_outcome) (k : nat) (cache0 : gmap string string)
    (urls : list string) (cache : gmap string string)
    : list (option string) * gmap string string :=
  match urls with
  | [] => ([], cache)
  | u :: r =>
      let '(content, cache_u, _) := fetch_bluesky_content (net k) u cache0 in
      let cache' := match cache_u !! u with
                    | Some c => <[u := c]> cache
                    | None => cache
                    end in
      let '(contents, cache'') := gather_from net (S k) cache0 r cache' in
      (content :: contents, cache'')
  end.

Definition gather (net : nat -> http_outcome) (cache0 : gmap string string)
    (urls : list string) : list (option string) * gmap string string :=
  gather_from net 0 cache0 urls cache0.

(** [if content:] — neither [None] nor the empty string. *)
Definition truthy (content : option string) : bool :=
  match content with
  | Some (String _ _) => true
  | _ => false
  end.

Section Enrichment.
Context `{PyRuntime}.

(** One turn of the loop over [zip(bluesky_entries, contents)]: the object
    is updated in place, so [self.entries] sees the change. *)
Definition enrich_step (l : list NewsEntry) (ic : nat * option string) : list NewsEntry :=
  let '(i, content) := ic in
  match content, l !! i with
  | Some c, Some entry =>
      if truthy content
      then <[i := tag_entry_with_content (set_content_snippet entry (Some c)) c]> l
      else l
  | _, _ => l
  end.

(** [process_bluesky_entries], with [net k] the outcome of the request of
    task [k]. With no target nothing is done. *)
Definition process_bluesky_entries (net : nat -> http_outcome) (p : DiaryProcessor)
    : DiaryProcessor :=
  let targets := bluesky_entries (entries p) in
  match targets with
  | [] => p
  | _ =>
      let urls := omap (fun i => url <$> entries p !! i) targets in
      let '(contents, cache) := gather net (bluesky_content_cache p) urls in
      mkDiaryProcessor (fold_left enrich_step (zip targets contents) (entries p)) cache
  end.

(** The loop [for entry in self.entries: self.tag_entry(entry)], left by
    the first exception. *)
Fixpoint tag_all (l : list NewsEntry) : result (list NewsEntry) :=
  match l with
  | [] => Ok []
  | e :: r =>
      match tag_entry e with
      | Ok e' => match tag_all r with
                 | Ok r' => Ok (e' :: r')
                 | Raise x => Raise x
                 end
      | Raise x => Raise x
      end
  end.

(** [process], up to the data it returns: parsing, tagging, enrichment. *)
Definition process (net : nat -> http_outcome) (lines : list string) : result DiaryProcessor :=
  match tag_all (parse_input_file lines) with
  | Ok l => Ok (process_bluesky_entries net (mkDiaryProcessor l ∅))
  | Raise x => Raise x
  end.

End Enrichment.

(** ** DiaryProcessor.print_statistics *)

(** [sum(1 for e in self.entries if 'bsky.app' in e.url)]. *)
Definition bluesky_count (l : list NewsEntry) : nat :=
  py_sum (map (fun _ => 1) (List.filter is_bluesky l)).

(** ** summary_generator.py *)

Record theme_info := mkThemeInfo {
  info_title : string;
  priority : nat;
  description : string
}.

(** [THEME_INFO], in declaration order. *)
Definition THEME_INFO : list (string * theme_info) := [
  ("government", mkThemeInfo
     "Federal Workforce Restructuring and Government Operations"
     1
     "Systematic restructuring of federal agencies, mass layoffs, and the Department of Government Efficiency (DOGE) initiatives");
  ("immigration", mkThemeInfo
     "Immigration Enforcement and Deportation Operations"
     2
     "Border enforcement, deportation operations, visa policies, and treatment of refugees and asylum seekers");
  ("science", mkThemeInfo
     "Scientific Research and Space Programs"
     3
     "Changes to NSF, NASA, climate research, and federal research funding");
  ("health", mkThemeInfo
     "Healthcare Policy and Public Health"
     4
     "CDC policies, vaccine programs, NIH research, and public health infrastructure");
  ("education", mkThemeInfo
     "Educational Institutions and Academic Freedom"
     5
     "University funding, DEI elimination, student visas, and academic research");
  ("justice", mkThemeInfo
     "Justice Department and Law Enforcement"
     6
     "DOJ transformation, FBI changes, prosecutorial decisions, and judicial relations");
  ("economy", mkThemeInfo
     "Economic Policy and Financial Markets"
     7
     "Tax policies, cryptocurrency, stock market regulations, and federal budget");
  ("trade", mkThemeInfo
     "Trade Policy and Tariffs"
     8
     "Import tariffs, trade agreements, and international commerce");
  ("foreign-affairs", mkThemeInfo
     "Foreign Policy and International Relations"
     9
     "Relations with allies and adversaries, military aid, and diplomatic initiatives");
  ("environment", mkThemeInfo
     "Environmental Deregulation and Resource Extraction"
     10
     "EPA changes, climate policy rollbacks, and natural resource exploitation");
  ("human-rights", mkThemeInfo
     "Civil Rights and Social Policy"
     11
     "LGBTQ+ rights, religious freedom, reproductive rights, and discrimination policies");
  ("civil-society", mkThemeInfo
     "Democratic Institutions and Civil Society"
     12
     "Voting rights, democratic norms, civil society organizations, and constitutional issues")
].

(** The line feed, [chr(10)]. *)
Definition nl : string := String (ascii_of_nat 10) "".

(** [groups[keyword].append(entry)] on a [defaultdict(list)]. *)
Definition group_append (groups : list (string * list NewsEntry)) (keyword : string)
    (entry : NewsEntry) : list (string * list NewsEntry) :=
  match dict_get groups keyword with
  | Some g => dict_set groups keyword (g ++ [entry])%list
  | None => dict_set groups keyword [entry]
  end.

(** The two nested loops that fill [keyword_groups]. *)
Definition keyword_groups (l : list NewsEntry) : list (string * list NewsEntry) :=
  fold_left (fun groups entry =>
               fold_left (fun groups keyword => group_append groups keyword entry)
                         (keywords entry) groups)
            l [].

(** [f"{k} ({len(v)} articles)"]. *)
Definition focus_item (kv : string * list NewsEntry) : string :=
  kv.1 +:+ " (" +:+ Str.of_nat (length kv.2) +:+ " articles)".

(** The anchor of one sample article, with its separator. *)
Definition sample_link (entry : NewsEntry) : string :=
  "<a href=" +:+ Str.dquote +:+ url entry +:+ Str.dquote +:+ ">" +:+ title entry +:+ "</a>; ".

(** The characters [rstrip('; ')] removes. *)
Definition semicolon_or_space (c : ascii) : bool :=
  (Str.code c =? 59)%nat || (Str.code c =? 32)%nat.

(** [generate_fallback_summary]; the entries are those of the dataset, so
    every one has its [url], [title] and [keywords]. An unknown theme
    raises [KeyError] at [THEME_INFO[theme]]. *)
Definition generate_fallback_summary (theme : string) (l : list NewsEntry) : result string :=
  match dict_get THEME_INFO theme with
  | None => Raise (KeyError theme)
  | Some info =>
      let groups := keyword_groups l in
      let summary :=
        "<p>The administration implemented significant changes in "
        +:+ Str.lower (description info) +:+ ". " in
      let summary :=
        summary +:+ "This section documents " +:+ Str.of_nat (length l)
        +:+ " articles tracking these developments.</p>" +:+ nl +:+ nl in
      let summary :=
        match groups with
        | [] => summary
        | _ =>
            let top_keywords :=
              take 3 (sorted_desc (fun kv : string * list NewsEntry => length kv.2) groups) in
            summary +:+ "<p>Key areas of focus included "
            +:+ Str.join ", " (map focus_item top_keywords)
            +:+ ".</p>" +:+ nl +:+ nl
        end in
      let summary := summary +:+ "<p>Notable developments included: " in
      let summary := fold_left (fun summary entry => summary +:+ sample_link entry)
                               (take 5 l) summary in
      Ok (Str.rstrip_by semicolon_or_space summary +:+ ".</p>")
  end.

(** What the POST to the messages API comes to: an exception inside the
    [try] (transport error), or a response with its status and, for the
    body, the text at [data['content'][0]['text']], absent when decoding
    the body or reaching that field raises. *)
Inductive api_outcome := ApiFailed | ApiResponse (status : Z) (text : option string).

(** [not self.claude_api_key]: no variable, or an empty one. *)
Definition no_key (claude_api_key : option string) : bool :=
  match claude_api_key with
  | Some (String _ _) => false
  | _ => true
  end.

(** The prompt, built from at most the first 20 entries. *)
Definition build_prompt (info : theme_info) (l : list NewsEntry) : string :=
  let entry_texts :=
    map (fun entry => "- " +:+ title entry +:+ " (" +:+ url entry +:+ ")") (take 20 l) in
  Str.join nl [
    "You are creating a summary for a historical archive of the Trump administration's policies.";
    "";
    "Theme: " +:+ info_title info;
    "Description: " +:+ description info;
    "";
    "Based on these news articles about this theme, write 2-3 paragraphs summarizing the key developments and their significance. Be factual, precise, and cite specific examples from the articles. Each paragraph should be 3-4 sentences.";
    "";
    "Articles:";
    Str.join nl entry_texts;
    "";
    "IMPORTANT: ";
    "- Be completely factual and accurate";
    "- Reference specific articles when making claims";
    "- Avoid speculation or editorializing";
    "- Focus on documenting what happened according to the sources";
    "- Write in past tense as this is a historical record"
  ].

(** [generate_theme_summary_with_claude], with [api prompt] the outcome of
    the request made with that prompt. Building the prompt reads
    [THEME_INFO[theme]] outside the [try]. *)
Definition generate_theme_summary_with_claude (claude_api_key : option string)
    (api : string -> api_outcome) (theme : string) (l : list NewsEntry) : result string :=
  if no_key claude_api_key then generate_fallback_summary theme l
  else
    match dict_get THEME_INFO theme with
    | None => Raise (KeyError theme)
    | Some info =>
        match api (build_prompt info l) with
        | ApiFailed => generate_fallback_summary theme l
        | ApiResponse status body =>
            if (status =? 200)%Z then
              match body with
              | Some text => Ok text
              | None => generate_fallback_summary theme l
              end
            else generate_fallback_summary theme l
        end
    end.

(** ** DiaryProcessor.generate_json_data *)

Module Metadata.
Record t := mk {
  generated : string;
  total_entries : nat;
  themes : list string;
  keywords : list string
}.
End Metadata.

(** The dict [generate_json_data] returns: [metadata] and [entries], each
    entry as [asdict] gives it. *)
Record Dataset := mkDataset {
  metadata : Metadata.t;
  dataset_entries : list NewsEntry
}.

(** [generate_json_data], with [now] the text of
    [datetime.now().isoformat()]. *)
Definition generate_json_data (now : string) (p : DiaryProcessor) : Dataset :=
  mkDataset
    (Metadata.mk now (length (entries p)) (map fst THEMES) (map fst KEYWORD_PATTERNS))
    (entries p).

(** ** DiaryProcessor.print_statistics: the histograms *)

(** [counts[k] = counts.get(k, 0) + 1]. *)
Definition count_key (counts : list (string * nat)) (k : string) : list (string * nat) :=
  dict_set counts k (default 0%nat (dict_get counts k) + 1)%nat.

(** The loop over the entries that fills [theme_counts]. *)
Definition theme_counts (l : list NewsEntry) : list (string * nat) :=
  fold_left (fun counts entry => fold_left count_key (themes entry) counts) l [].

(** The loop over the entries that fills [keyword_counts]. *)
Definition keyword_counts (l : list NewsEntry) : list (string * nat) :=
  fold_left (fun counts entry => fold_left count_key (keywords entry) counts) l [].

(** What [print_statistics] prints: the three totals, the themes by
    descending count, and the first 15 keywords by descending count. *)
Record Statistics := mkStatistics {
  stat_total : nat;
  stat_with_dates : nat;
  stat_bluesky : nat;
  theme_distribution : list (string * nat);
  top_keyword_lines : list (string * nat)
}.

Definition print_statistics (l : list NewsEntry) : Statistics :=
  mkStatistics
    (length l)
    (py_sum (map (fun _ => 1%nat) (List.filter (fun e => truthy (date e)) l)))
    (bluesky_count l)
    (sorted_desc snd (theme_counts l))
    (take 15 (sorted_desc snd (keyword_counts l))).

(** ** SummaryGenerator.organize_entries_by_theme, generate_summaries *)

(** The loop that files every entry with a theme under its first theme. *)
Definition organize_entries_by_theme (l : list NewsEntry) : list (string * list NewsEntry) :=
  fold_left (fun themed entry =>
               match themes entry with
               | primary_theme :: _ => group_append themed primary_theme entry
               | [] => themed
               end)
            l [].

(** The loop of [generate_summaries] over the keys of [THEME_INFO], left by
    the first exception. *)
Fixpoint summaries_loop (use_claude_api : bool) (claude_api_key : option string)
    (api : string -> api_outcome) (themed : list (string * list NewsEntry))
    (keys : list string) (summaries : list (string * string))
    : result (list (string * string)) :=
  match keys with
  | [] => Ok summaries
  | theme :: rest =>
      match dict_get themed theme with
      | Some l =>
          match (if use_claude_api
                 then generate_theme_summary_with_claude claude_api_key api theme l
                 else generate_fallback_summary theme l) with
          | Ok summary =>
              summaries_loop use_claude_api claude_api_key api themed rest
                             (dict_set summaries theme summary)
          | Raise x => Raise x
          end
      | None => summaries_loop use_claude_api claude_api_key api themed rest summaries
      end
  end.

Definition generate_summaries (use_claude_api : bool) (claude_api_key : option string)
    (api : string -> api_outcome) (l : list NewsEntry) : result (list (string * string)) :=
  summaries_loop use_claude_api claude_api_key api (organize_entries_by_theme l)
                 (map fst THEME_INFO) [].

(** ** The vocabulary of the specification *)

(** [p] occurs in [s] as a contiguous substring. *)
Definition occurs (p s : string) : Prop := exists a b, s = a +:+ p +:+ b.

(** [n] of the strings of [l] satisfy [P], each counted once. *)
Inductive counts (P : string -> Prop) : list string -> nat -> Prop :=
| counts_nil : counts P [] 0
| counts_hit p l n : P p -> counts P l n -> counts P (p :: l) (S n)
| counts_miss p l n : ~ P p -> counts P l n -> counts P (p :: l) n.

(** [ranked] is [scored] in descending order of score, items of equal
    score in the order they have in [scored]. *)
Definition ranking (scored ranked : list (string * nat)) : Prop :=
  Permutation ranked scored
  /\ StronglySorted (fun a b => (b.2 <= a.2)%nat) ranked
  /\ forall n, filter (fun x : string * nat => x.2 = n) ranked
               = filter (fun x : string * nat => x.2 = n) scored.

(** A line the parser keeps. *)
Definition parseable (line : string) : bool :=
  match Re.match_ line_pattern (Str.strip line) with
  | Some _ => true
  | None => false
  end.

(** [pattern] matches at some position of [url] with groups [g], and at no
    earlier position. *)
Definition leftmost_match {A : Type} (pattern : string -> option A) (url : string) (g : A)
    : Prop :=
  exists before rest,
    url = before +:+ rest /\ pattern rest = Some g
    /\ forall a b, before = a +:+ b -> b <> "" -> pattern (b +:+ rest) = None.

(** [pattern] matches at no position of [url]. *)
Definition no_match {A : Type} (pattern : string -> option A) (url : string) : Prop :=
  forall before rest, url = before +:+ rest -> pattern rest = None.

(** The leftmost match of [pattern] in [url] passes the test and gives the
    date [s]. *)
Definition accepts (pattern : string -> option date_groups) (url s : string) : Prop :=
  exists y m d,
    leftmost_match pattern url (y, m, d)
    /\ (2024 <= Str.int y <= 2026)%Z /\ (1 <= Str.int m <= 12)%Z /\ (1 <= Str.int d <= 31)%Z
    /\ s = format_date (Str.int y) (Str.int m) (Str.int d).

(** [pattern] matches nowhere in [url], or its leftmost match fails the
    test. *)
Definition rejects (pattern : string -> option date_groups) (url : string) : Prop :=
  no_match pattern url
  \/ exists y m d,
       leftmost_match pattern url (y, m, d)
       /\ ~ ((2024 <= Str.int y <= 2026)%Z /\ (1 <= Str.int m <= 12)%Z
             /\ (1 <= Str.int d <= 31)%Z).

(** Date extraction as the specification words it: the first pattern that
    matches the URL decides, and its candidate is the date or nothing. *)
Fixpoint first_match (patterns : list (string -> option date_groups)) (url : string)
    : option date_groups :=
  match patterns with
  | [] => None
  | pattern :: rest =>
      match Re.search pattern url with
      | Some g => Some g
      | None => first_match rest url
      end
  end.

Definition extract_date_first_wins (url : string) : option string :=
  match first_match date_patterns url with
  | Some (y, m, d) =>
      if plausible (Str.int y) (Str.int m) (Str.int d)
      then Some (format_date (Str.int y) (Str.int m) (Str.int d))
      else None
  | None => None
  end.

(** The cardinality invariant of an entry's tags. *)
Definition tags_bounded (e : NewsEntry) : Prop :=
  (length (themes e) <= 2)%nat /\ (length (keywords e) <= 3)%nat /\ NoDup (keywords e).

Definition has_snippet (e : NewsEntry) : bool :=
  match content_snippet e with
  | Some _ => true
  | None => false
  end.

(** The entry a numbered line gives, if it is kept. *)
Definition entry_of_line (il : nat * string) : option NewsEntry :=
  match Re.match_ line_pattern (Str.strip il.2) with
  | Some (u, t) => Some (mkNewsEntry il.1 u t (extract_date u) [] [] None)
  | None => None
  end.

(** An input of two lines, the first one not an entry. *)
Definition lines_with_gap : list string := [
  "Sources for day 12" +:+ String (ascii_of_nat 10) "";
  "2. <a href=" +:+ Str.dquote +:+ "https://example.gov/a" +:+ Str.dquote
  +:+ ">A title</a>" +:+ String (ascii_of_nat 10) ""
].

(** One turn of the loop that fills [theme_scores]. *)
Definition score_step (score : list string -> nat) (theme_scores : list (string * nat))
    (tp : string * list string) : list (string * nat) :=
  let '(theme, patterns) := tp in
  if (0 <? score patterns)%nat then dict_set theme_scores theme (score patterns)
  else theme_scores.

(** The themes of [table] that score, with their scores, in the order of
    [table]. *)
Definition scored (score : list string -> nat) (table : list (string * list string))
    : list (string * nat) :=
  List.filter (fun x => (0 <? x.2)%nat) (map (fun tp => (tp.1, score tp.2)) table).

Section EnrichmentVocabulary.
Context `{PyRuntime}.

(** What the enrichment loop does to the entry of a task, given the
    content the task returned. *)
Definition enrich_entry (content : option string) (e : NewsEntry) : NewsEntry :=
  match content with
  | Some (String c r) =>
      tag_entry_with_content (set_content_snippet e (Some (String c r))) (String c r)
  | _ => e
  end.

(** The entries after enrichment, read off the entries and the contents
    of the tasks, the targets taking the contents in order. *)
Fixpoint enrich_all (l : list NewsEntry) (contents : list (option string)) : list NewsEntry :=
  match l with
  | [] => []
  | e :: r =>
      if is_bluesky e then
        match contents with
        | c :: cs => enrich_entry c e :: enrich_all r cs
        | [] => e :: r
        end
      else e :: enrich_all r contents
  end.

End EnrichmentVocabulary.

(** The URLs of the tasks of a run, and what the tasks return. *)
Definition task_urls (p : DiaryProcessor) : list string :=
  omap (fun i => url <$> entries p !! i) (bluesky_entries (entries p)).

Definition task_contents (net : nat -> http_outcome) (p : DiaryProcessor)
    : list (option string) :=
  (gather net (bluesky_content_cache p) (task_urls p)).1.

(** The fetch of a URL that is not cached fails: the request raises, the
    status is not 200, no selector finds an element, or the element found
    has no content to slice (which raises inside the [try]). *)
Definition fetch_fails (outcome : http_outcome) : Prop :=
  match outcome with
  | Failed => True
  | Response status page =>
      status <> 200%Z
      \/ select_content content_selectors page = None
      \/ select_content content_selectors page = Some None
  end.

(** A page whose post text is [text]. *)
Definition page_with_text (text : string) : soup :=
  fun selector =>
    if String.eqb selector "div.post-content" then Some (mkElement "div" None text)
    else None.

(** A page with none of the content containers. *)
Definition page_without_content : soup := fun _ => None.

(** Three tagged entries, the first and the third Bluesky posts, and a
    network on which the first request succeeds and the others time out. *)
Definition sample_processor : DiaryProcessor :=
  mkDiaryProcessor
    [ mkNewsEntry 1 "https://bsky.app/profile/a.example/post/1" "A post" None
        ["government"] [] None;
      mkNewsEntry 2 "https://example.gov/2025/01/15/nsf-budget-cuts"
        "NSF budget cuts announced" (Some "2025-01-15") ["science"; "economy"] ["nsf"] None;
      mkNewsEntry 3 "https://bsky.app/profile/b.example/post/2" "Another post" None
        ["government"] [] None ]
    ∅.

Definition sample_net (k : nat) : http_outcome :=
  match k with
  | O => Response 200 (page_with_text "NASA research upheld in court")
  | _ => Failed
  end.

(** An input of one line, a Bluesky post whose URL and title match no
    theme pattern, and a network that serves its text, which matches none
    either. *)
Definition bare_post_lines : list string := [
  "1. <a href=" +:+ Str.dquote +:+ "https://bsky.app/profile/x.example/post/1"
  +:+ Str.dquote +:+ ">hello</a>" +:+ String (ascii_of_nat 10) ""
].

Definition bare_post_net (k : nat) : http_outcome :=
  Response 200 (page_with_text "good morning").

(** An article that links back to a Bluesky post in its query string. *)
Definition article_with_bsky_query : NewsEntry :=
  mkNewsEntry 1 "https://news.example/story?via=bsky.app" "A story" None [] [] None.

(** [s] is empty or starts with a character outside [P]. *)
Definition no_head (P : ascii -> bool) (s : string) : Prop :=
  match s with
  | "" => True
  | String c _ => P c = false
  end.

(** Between [lo] and [hi] characters, all of them digits. *)
Definition digits (lo hi : nat) (s : string) : Prop :=
  (lo <= String.length s <= hi)%nat /\ Str.all_chars Str.isdigit s = true.

(** The shape [/YYYY/M/D/] at the start of [s], month and day of one or
    two digits. *)
Definition slashes_shape (s y m d : string) : Prop :=
  exists rest,
    s = "/" +:+ y +:+ "/" +:+ m +:+ "/" +:+ d +:+ "/" +:+ rest
    /\ digits 4 4 y /\ digits 1 2 m /\ digits 1 2 d.

(** The shape [/YYYY-MM-DD] at the start of [s]. *)
Definition dashes_shape (s y m d : string) : Prop :=
  exists rest,
    s = "/" +:+ y +:+ "-" +:+ m +:+ "-" +:+ d +:+ rest
    /\ digits 4 4 y /\ digits 2 2 m /\ digits 2 2 d.

(** The shape [YYYYMMDD] at the start of [s]: eight digits. *)
Definition compact_shape (s y m d : string) : Prop :=
  exists rest,
    s = y +:+ m +:+ d +:+ rest
    /\ digits 4 4 y /\ digits 2 2 m /\ digits 2 2 d.

(** The shape of a line that is kept: digits, a full stop, optional white
    space, and an anchor with a non-empty [href] free of double quotes and
    a non-empty text free of [<]; anything may follow. *)
Definition line_shape (s u t : string) : Prop :=
  exists ds ws rest,
    s = ds +:+ "." +:+ ws +:+ ("<a href=" +:+ Str.dquote) +:+ u
        +:+ (Str.dquote +:+ ">") +:+ t +:+ "</a>" +:+ rest
    /\ ds <> "" /\ Str.all_chars Str.isdigit ds = true
    /\ Str.all_chars Str.isspace ws = true
    /\ u <> "" /\ Str.all_chars (not_char 34) u = true
    /\ t <> "" /\ Str.all_chars (not_char 60) t = true.

(** The tags of an entry are drawn from the two taxonomies. *)
Definition in_taxonomy (e : NewsEntry) : Prop :=
  (forall t, t ∈ themes e -> t ∈ map fst THEMES)
  /\ (forall k, k ∈ keywords e -> k ∈ map fst KEYWORD_PATTERNS).

(** Two entries that differ at most in their tags and snippet. *)
Definition same_article (e e' : NewsEntry) : Prop :=
  id e' = id e /\ url e' = url e /\ title e' = title e /\ date e' = date e.

(** The request of a task brings text back: the status is 200 and the
    first element a selector finds has a non-empty content. *)
Definition brings_content (outcome : http_outcome) : bool :=
  match outcome with
  | Failed => false
  | Response status page =>
      (status =? 200)%Z
      && match select_content content_selectors page with
         | Some (Some (String _ _)) => true
         | _ => false
         end
  end.

(** The response is a 200 page on which the first element a selector finds
    has an empty text. *)
Definition empty_text (outcome : http_outcome) : Prop :=
  exists page,
    outcome = Response 200 page
    /\ select_content content_selectors page = Some (Some "").

(** A network that serves the post with an empty text container. *)
Definition empty_text_net (k : nat) : http_outcome :=
  Response 200 (page_with_text "").

(** * Properties *)

(** ** Strings *)

Lemma append_cons (c : ascii) (s t : string) : String c s +:+ t = String c (s +:+ t).
Proof. reflexivity. Qed.

Lemma append_nil_l (s : string) : "" +:+ s = s.
Proof. reflexivity. Qed.

Lemma append_nil_r (s : string) : s +:+ "" = s.
Proof. induction s as [|c s IH]; [reflexivity | now rewrite append_cons, IH]. Qed.

Lemma append_assoc (a b c : string) : (a +:+ b) +:+ c = a +:+ (b +:+ c).
Proof. induction a as [|x a IH]; [reflexivity | now rewrite !append_cons, IH]. Qed.

Lemma strip_prefix_Some (p s r : string) :
  Str.strip_prefix p s = Some r <-> s = p +:+ r.
Proof.
  revert s; induction p as [|a p IH]; intros s; simpl.
  - rewrite append_nil_l. split; intros Hs; [now inversion Hs | now subst].
  - rewrite append_cons. destruct s as [|b s].
    + split; intros Hs; discriminate.
    + destruct (Ascii.eqb_spec a b) as [->|Hne].
      * rewrite IH. split; intros Hs; [now subst | now inversion Hs].
      * split; intros Hs; [discriminate | congruence].
Qed.

Lemma occurs_here (p r : string) : occurs p (p +:+ r).
Proof. exists "", r. reflexivity. Qed.

Lemma occurs_later (p s : string) (c : ascii) : occurs p s -> occurs p (String c s).
Proof. intros (a & b & ->). exists (String c a), b. reflexivity. Qed.

Lemma strip_prefix_None_here (p s : string) :
  Str.strip_prefix p s = None -> forall b, s <> p +:+ b.
Proof.
  intros E b Hb. apply strip_prefix_Some in Hb. congruence.
Qed.

(** The [in] test of the code is substring occurrence. *)
Lemma contains_occurs (p s : string) : Str.contains p s = true <-> occurs p s.
Proof.
  induction s as [|c s IH]; simpl.
  - destruct (Str.strip_prefix p "") as [r|] eqn:E.
    + apply strip_prefix_Some in E. split; [intros _ | reflexivity].
      rewrite E. apply occurs_here.
    + split; [discriminate |]. intros (a & b & Hab).
      destruct a as [|x a]; [| rewrite append_cons in Hab; discriminate].
      exfalso. exact (strip_prefix_None_here _ _ E b Hab).
  - destruct (Str.strip_prefix p (String c s)) as [r|] eqn:E.
    + apply strip_prefix_Some in E. split; [intros _ | reflexivity].
      rewrite E. apply occurs_here.
    + rewrite IH. split; [apply occurs_later |].
      intros (a & b & Hab). destruct a as [|x a].
      * exfalso. exact (strip_prefix_None_here _ _ E b Hab).
      * rewrite append_cons in Hab. inversion Hab; subst. now exists a, b.
Qed.

Lemma contains_false (p s : string) : Str.contains p s = false <-> ~ occurs p s.
Proof.
  rewrite <- contains_occurs. destruct (Str.contains p s); split; intros; congruence.
Qed.

(** ** The matcher *)

Lemma all_chars_app (P : ascii -> bool) (a b : string) :
  Str.all_chars P (a +:+ b) = Str.all_chars P a && Str.all_chars P b.
Proof.
  induction a as [|c a IH]; [reflexivity |].
  rewrite append_cons. simpl. now rewrite IH, andb_assoc.
Qed.

Lemma length_append (a b : string) :
  String.length (a +:+ b) = (String.length a + String.length b)%nat.
Proof.
  induction a as [|c a IH]; [reflexivity |].
  rewrite append_cons. simpl. now rewrite IH.
Qed.

Section MatcherFacts.
Context {A : Type}.

Lemma lit_spec (l : string) (k : string -> option A) (s : string) (g : A) :
  Re.lit l k s = Some g <-> exists r, s = l +:+ r /\ k r = Some g.
Proof.
  unfold Re.lit. destruct (Str.strip_prefix l s) as [r|] eqn:E.
  - apply strip_prefix_Some in E. split.
    + intros Hk. now exists r.
    + intros (r' & Hs & Hk). rewrite E in Hs.
      apply (inj (String.app l)) in Hs. now subst.
  - split; [discriminate |]. intros (r & Hs & _).
    exfalso. exact (strip_prefix_None_here _ _ E r Hs).
Qed.

(** [c{n}] takes exactly [n] characters of the class. *)
Lemma exactly_from_spec (n : nat) (P : ascii -> bool) (k : string -> string -> option A)
    (acc s : string) (g : A) :
  Re.exactly_from n P k acc s = Some g
  <-> exists m r, s = m +:+ r /\ String.length m = n /\ Str.all_chars P m = true
                  /\ k (acc +:+ m) r = Some g.
Proof.
  revert acc s; induction n as [|n IH]; intros acc s; simpl.
  - split.
    + intros Hk. exists "", s. rewrite append_nil_r. auto.
    + intros (m & r & -> & Hlen & _ & Hk). destruct m; [| discriminate].
      now rewrite append_nil_r in Hk.
  - destruct s as [|c s].
    + split; [discriminate |]. intros (m & r & Hs & Hlen & _).
      destruct m; discriminate.
    + destruct (P c) eqn:Hc.
      * rewrite IH. split.
        -- intros (m & r & -> & Hlen & Hall & Hk). exists (String c m), r.
           rewrite append_assoc in Hk. simpl. rewrite Hc, Hall, Hlen. auto.
        -- intros (m & r & Hs & Hlen & Hall & Hk). destruct m as [|c' m]; [discriminate |].
           rewrite append_cons in Hs. inversion Hs; subst. simpl in Hlen, Hall.
           rewrite Hc in Hall. exists m, r. rewrite append_assoc. auto.
      * split; [discriminate |]. intros (m & r & Hs & Hlen & Hall & _).
        destruct m as [|c' m]; [discriminate |].
        rewrite append_cons in Hs. inversion Hs; subst. simpl in Hall.
        rewrite Hc in Hall. discriminate.
Qed.

Lemma exactly_spec (n : nat) (P : ascii -> bool) (k : string -> string -> option A)
    (s : string) (g : A) :
  Re.exactly n P k s = Some g
  <-> exists m r, s = m +:+ r /\ String.length m = n /\ Str.all_chars P m = true
                  /\ k m r = Some g.
Proof. unfold Re.exactly. now rewrite exactly_from_spec. Qed.

(** What [c{1,2}] matched is one or two characters of the class. *)
Lemma one_or_two_sound (P : ascii -> bool) (k : string -> string -> option A)
    (s : string) (g : A) :
  Re.one_or_two P k s = Some g ->
  exists m r, s = m +:+ r /\ (1 <= String.length m <= 2)%nat
              /\ Str.all_chars P m = true /\ k m r = Some g.
Proof.
  unfold Re.one_or_two. destruct s as [|a r]; [discriminate |].
  destruct (P a) eqn:Ha; [| discriminate].
  assert (Hone : k (String a "") r = Some g ->
                 exists m r0, String a r = m +:+ r0 /\ (1 <= String.length m <= 2)%nat
                              /\ Str.all_chars P m = true /\ k m r0 = Some g).
  { intros Hk. exists (String a ""), r. simpl. rewrite Ha. repeat split; auto; lia. }
  destruct r as [|b r']; [exact Hone |].
  destruct (P b) eqn:Hb; [| exact Hone].
  destruct (k (String a (String b "")) r') as [x|] eqn:Hk; [| exact Hone].
  intros Heq; inversion Heq; subst. exists (String a (String b "")), r'.
  simpl. rewrite Ha, Hb. repeat split; auto; lia.
Qed.

(** One or two characters of the class, followed by a character outside
    it, are what [c{1,2}] matches. *)
Lemma one_or_two_complete (P : ascii -> bool) (k : string -> string -> option A)
    (m r : string) (g : A) :
  (1 <= String.length m <= 2)%nat -> Str.all_chars P m = true -> no_head P r ->
  k m r = Some g -> Re.one_or_two P k (m +:+ r) = Some g.
Proof.
  intros Hlen Hall Hr Hk. destruct m as [|a [|b [|c m]]]; simpl in Hlen; try lia.
  - simpl in Hall. rewrite andb_true_r in Hall.
    rewrite append_cons, append_nil_l. unfold Re.one_or_two. rewrite Hall.
    destruct r as [|b r']; [exact Hk |]. simpl in Hr. rewrite Hr. exact Hk.
  - simpl in Hall. apply andb_prop in Hall as [Ha Hb]. rewrite andb_true_r in Hb.
    rewrite !append_cons, append_nil_l. unfold Re.one_or_two. now rewrite Ha, Hb, Hk.
Qed.

(** What [c*] matched is a run of characters of the class. *)
Lemma star_from_sound (P : ascii -> bool) (k : string -> string -> option A)
    (acc s : string) (g : A) :
  Re.star_from P k acc s = Some g ->
  exists m r, s = m +:+ r /\ Str.all_chars P m = true /\ k (acc +:+ m) r = Some g.
Proof.
  revert acc; induction s as [|c s IH]; intros acc; simpl.
  - intros Hk. exists "", "". rewrite (append_nil_r acc). auto.
  - assert (Hstop : k acc (String c s) = Some g ->
                    exists m r, String c s = m +:+ r /\ Str.all_chars P m = true
                                /\ k (acc +:+ m) r = Some g).
    { intros Hk. exists "", (String c s). rewrite append_nil_r. auto. }
    destruct (P c) eqn:Hc; [| exact Hstop].
    destruct (Re.star_from P k (acc +:+ String c "") s) as [x|] eqn:Hs; [| exact Hstop].
    intros Heq; inversion Heq; subst.
    destruct (IH _ Hs) as (m & r & -> & Hall & Hk). exists (String c m), r.
    rewrite append_assoc in Hk. simpl. rewrite Hc, Hall. auto.
Qed.

(** A run of characters of the class followed by a character outside it is
    what [c*] matches. *)
Lemma star_from_complete (P : ascii -> bool) (k : string -> string -> option A)
    (acc m r : string) (g : A) :
  Str.all_chars P m = true -> no_head P r -> k (acc +:+ m) r = Some g ->
  Re.star_from P k acc (m +:+ r) = Some g.
Proof.
  revert acc; induction m as [|c m IH]; intros acc Hall Hr Hk.
  - rewrite append_nil_l. rewrite append_nil_r in Hk.
    destruct r as [|c r]; simpl; [exact Hk |]. simpl in Hr. now rewrite Hr.
  - simpl in Hall. apply andb_prop in Hall as [Hc Hall].
    rewrite append_cons. simpl. rewrite Hc.
    rewrite (IH (acc +:+ String c "") Hall Hr); [reflexivity |].
    now rewrite append_assoc.
Qed.

Lemma plus_sound (P : ascii -> bool) (k : string -> string -> option A)
    (s : string) (g : A) :
  Re.plus P k s = Some g ->
  exists m r, s = m +:+ r /\ m <> "" /\ Str.all_chars P m = true /\ k m r = Some g.
Proof.
  unfold Re.plus. destruct s as [|c s]; [discriminate |].
  destruct (P c) eqn:Hc; [| discriminate]. intros Hs.
  apply star_from_sound in Hs as (m & r & -> & Hall & Hk).
  exists (String c m), r. simpl. rewrite Hc, Hall. repeat split; auto; discriminate.
Qed.

Lemma plus_complete (P : ascii -> bool) (k : string -> string -> option A)
    (m r : string) (g : A) :
  m <> "" -> Str.all_chars P m = true -> no_head P r -> k m r = Some g ->
  Re.plus P k (m +:+ r) = Some g.
Proof.
  intros Hm Hall Hr Hk. destruct m as [|c m]; [contradiction |].
  simpl in Hall. apply andb_prop in Hall as [Hc Hall].
  rewrite append_cons. unfold Re.plus. rewrite Hc.
  now apply star_from_complete.
Qed.

End MatcherFacts.

(** ** The patterns of the source *)

Lemma digits_exact (n : nat) (s : string) :
  digits n n s <-> String.length s = n /\ Str.all_chars Str.isdigit s = true.
Proof. unfold digits. intuition lia. Qed.

Lemma pattern_compact_shape (s y m d : string) :
  pattern_compact s = Some (y, m, d) <-> compact_shape s y m d.
Proof.
  unfold pattern_compact, compact_shape. split.
  - intros Hp.
    apply exactly_spec in Hp as (y' & r1 & -> & Hly & Hay & Hp).
    apply exactly_spec in Hp as (m' & r2 & -> & Hlm & Ham & Hp).
    apply exactly_spec in Hp as (d' & r3 & -> & Hld & Had & Hp).
    inversion Hp; subst. exists r3. rewrite !digits_exact. auto.
  - intros (rest & -> & Hy & Hm & Hd). apply digits_exact in Hy as [Hly Hay].
    apply digits_exact in Hm as [Hlm Ham]. apply digits_exact in Hd as [Hld Had].
    apply exactly_spec. exists y, (m +:+ d +:+ rest). repeat split; auto.
    apply exactly_spec. exists m, (d +:+ rest). repeat split; auto.
    apply exactly_spec. exists d, rest. repeat split; auto.
Qed.

Lemma pattern_dashes_shape (s y m d : string) :
  pattern_dashes s = Some (y, m, d) <-> dashes_shape s y m d.
Proof.
  unfold pattern_dashes, dashes_shape. split.
  - intros Hp.
    apply lit_spec in Hp as (r0 & -> & Hp).
    apply exactly_spec in Hp as (y' & r1 & -> & Hly & Hay & Hp).
    apply lit_spec in Hp as (r2 & -> & Hp).
    apply exactly_spec in Hp as (m' & r3 & -> & Hlm & Ham & Hp).
    apply lit_spec in Hp as (r4 & -> & Hp).
    apply exactly_spec in Hp as (d' & r5 & -> & Hld & Had & Hp).
    inversion Hp; subst. exists r5. rewrite !digits_exact. auto.
  - intros (rest & -> & Hy & Hm & Hd). apply digits_exact in Hy as [Hly Hay].
    apply digits_exact in Hm as [Hlm Ham]. apply digits_exact in Hd as [Hld Had].
    apply lit_spec. eexists; split; [reflexivity |].
    apply exactly_spec. exists y, ("-" +:+ m +:+ "-" +:+ d +:+ rest). repeat split; auto.
    apply lit_spec. eexists; split; [reflexivity |].
    apply exactly_spec. exists m, ("-" +:+ d +:+ rest). repeat split; auto.
    apply lit_spec. eexists; split; [reflexivity |].
    apply exactly_spec. exists d, rest. repeat split; auto.
Qed.

Lemma pattern_slashes_shape (s y m d : string) :
  pattern_slashes s = Some (y, m, d) <-> slashes_shape s y m d.
Proof.
  unfold pattern_slashes, slashes_shape. split.
  - intros Hp.
    apply lit_spec in Hp as (r0 & -> & Hp).
    apply exactly_spec in Hp as (y' & r1 & -> & Hly & Hay & Hp).
    apply lit_spec in Hp as (r2 & -> & Hp).
    apply one_or_two_sound in Hp as (m' & r3 & -> & Hlm & Ham & Hp).
    apply lit_spec in Hp as (r4 & -> & Hp).
    apply one_or_two_sound in Hp as (d' & r5 & -> & Hld & Had & Hp).
    apply lit_spec in Hp as (r6 & -> & Hp).
    inversion Hp; subst. exists r6. rewrite digits_exact. unfold digits. auto.
  - intros (rest & -> & Hy & [Hlm Ham] & [Hld Had]). apply digits_exact in Hy as [Hly Hay].
    apply lit_spec. eexists; split; [reflexivity |].
    apply exactly_spec. exists y, ("/" +:+ m +:+ "/" +:+ d +:+ "/" +:+ rest).
    repeat split; auto.
    apply lit_spec. eexists; split; [reflexivity |].
    apply one_or_two_complete; [exact Hlm | exact Ham | reflexivity |].
    apply lit_spec. eexists; split; [reflexivity |].
    apply one_or_two_complete; [exact Hld | exact Had | reflexivity |].
    apply lit_spec. eexists; split; reflexivity.
Qed.

(** The lines kept by the parser are those of the expected shape, and the
    groups are the [href] and the text of the anchor. *)
Lemma line_pattern_shape (s u t : string) :
  line_pattern s = Some (u, t) <-> line_shape s u t.
Proof.
  unfold line_pattern, line_shape. split.
  - intros Hp.
    apply plus_sound in Hp as (ds & r0 & -> & Hds & Hads & Hp).
    apply lit_spec in Hp as (r1 & -> & Hp).
    apply star_from_sound in Hp as (ws & r2 & -> & Haws & Hp).
    apply lit_spec in Hp as (r3 & -> & Hp).
    apply plus_sound in Hp as (u' & r4 & -> & Hu & Hau & Hp).
    apply lit_spec in Hp as (r5 & -> & Hp).
    apply plus_sound in Hp as (t' & r6 & -> & Ht & Hat & Hp).
    apply lit_spec in Hp as (r7 & -> & Hp).
    inversion Hp; subst. exists ds, ws, r7. repeat split; auto.
  - intros (ds & ws & rest & -> & Hds & Hads & Haws & Hu & Hau & Ht & Hat).
    apply plus_complete; [exact Hds | exact Hads | reflexivity |].
    apply lit_spec. eexists; split; [reflexivity |].
    apply star_from_complete; [exact Haws | reflexivity |].
    apply lit_spec. eexists; split; [reflexivity |].
    apply plus_complete; [exact Hu | exact Hau | reflexivity |].
    apply lit_spec. eexists; split; [reflexivity |].
    apply plus_complete; [exact Ht | exact Hat | reflexivity |].
    apply lit_spec. eexists; split; reflexivity.
Qed.

(** ** EntryParser *)

Lemma enumerate_fst {A : Type} (start : nat) (l : list A) :
  map fst (enumerate start l) = seq start (length l).
Proof.
  revert start; induction l as [|x l IH]; intros start; simpl; [reflexivity |].
  now rewrite IH.
Qed.

Lemma enumerate_lookup {A : Type} (start : nat) (l : list A) (i : nat) (x : A) :
  (i, x) ∈ enumerate start l -> (start <= i)%nat /\ l !! (i - start)%nat = Some x.
Proof.
  revert start; induction l as [|y l IH]; intros start Hin; simpl in Hin.
  - now apply elem_of_nil in Hin.
  - apply elem_of_cons in Hin as [Heq | Hin].
    + inversion Heq; subst. split; [lia |]. now rewrite Nat.sub_diag.
    + apply IH in Hin as [Hle Hl]. split; [lia |].
      replace (i - start)%nat with (S (i - S start)) by lia. exact Hl.
Qed.

Lemma parse_step_entry (acc : list NewsEntry) (il : nat * string) :
  parse_step acc il = (acc ++ option_list (entry_of_line il))%list.
Proof.
  destruct il as [i line]. unfold parse_step, entry_of_line; simpl.
  destruct (Re.match_ line_pattern (Str.strip line)) as [[u t]|]; simpl;
    [reflexivity | now rewrite app_nil_r].
Qed.

Lemma parse_fold (l : list (nat * string)) (acc : list NewsEntry) :
  fold_left parse_step l acc = (acc ++ omap entry_of_line l)%list.
Proof.
  revert acc; induction l as [|il l IH]; intros acc; simpl.
  - now rewrite app_nil_r.
  - rewrite IH, parse_step_entry, <- app_assoc. f_equal.
    now destruct (entry_of_line il).
Qed.

(** The loop of [parse_input_file] is a comprehension over the numbered
    lines. *)
Lemma parse_input_file_omap (lines : list string) :
  parse_input_file lines = omap entry_of_line (enumerate 1 lines).
Proof. unfold parse_input_file. now rewrite parse_fold. Qed.

Lemma entry_of_line_id (il : nat * string) (e : NewsEntry) :
  entry_of_line il = Some e ->
  id e = il.1 /\ parseable il.2 = true
  /\ Re.match_ line_pattern (Str.strip il.2) = Some (url e, title e).
Proof.
  unfold entry_of_line, parseable.
  destruct (Re.match_ line_pattern (Str.strip il.2)) as [[u t]|]; [| discriminate].
  intros Heq; inversion Heq; subst; simpl. auto.
Qed.

Lemma entry_of_line_None (il : nat * string) :
  entry_of_line il = None -> parseable il.2 = false.
Proof.
  unfold entry_of_line, parseable.
  now destruct (Re.match_ line_pattern (Str.strip il.2)) as [[u t]|].
Qed.

Lemma omap_entry_ids (l : list (nat * string)) :
  map id (omap entry_of_line l)
  = map fst (List.filter (fun il => parseable il.2) l).
Proof.
  induction l as [|il l IH]; simpl; [reflexivity |].
  destruct (entry_of_line il) as [e|] eqn:E.
  - apply entry_of_line_id in E as (Hid & Hp & _). rewrite Hp; simpl.
    f_equal; [exact Hid | exact IH].
  - apply entry_of_line_None in E. rewrite E. exact IH.
Qed.

Lemma filter_all {A : Type} (f : A -> bool) (l : list A) :
  forallb f l = true -> List.filter f l = l.
Proof.
  induction l as [|x l IH]; simpl; [reflexivity |].
  intros Hf. apply andb_prop in Hf as [Hx Hl]. now rewrite Hx, IH.
Qed.

Lemma forallb_enumerate {A : Type} (f : A -> bool) (start : nat) (l : list A) :
  forallb (fun il => f il.2) (enumerate start l) = forallb f l.
Proof.
  revert start; induction l as [|x l IH]; intros start; simpl; [reflexivity |].
  now rewrite IH.
Qed.

Lemma StronglySorted_filter_lt (f : nat * string -> bool) (l : list (nat * string)) :
  StronglySorted lt (map fst l) -> StronglySorted lt (map fst (List.filter f l)).
Proof.
  induction l as [|x l IH]; simpl; intros Hs; [constructor |].
  apply StronglySorted_inv in Hs as [Hs Hall].
  destruct (f x); simpl; [| now apply IH].
  constructor; [now apply IH |].
  rewrite List.Forall_forall in *. intros n Hn. apply Hall.
  apply in_map_iff in Hn as (y & <- & Hy). apply in_map.
  now apply List.filter_In in Hy as [Hy _].
Qed.

Lemma StronglySorted_seq (start len : nat) : StronglySorted lt (seq start len).
Proof.
  revert start; induction len as [|len IH]; intros start; simpl; constructor.
  - apply IH.
  - rewrite List.Forall_forall. intros n Hn. apply in_seq in Hn. lia.
Qed.

(** C1, as stated, fails: an input whose first line is not an entry gives
    its second line the id 2, so the ids of the one entry produced are not
    1..1. *)
Lemma parse_input_file_gap :
  map id (parse_input_file lines_with_gap) = [2%nat]
  /\ map id (parse_input_file lines_with_gap)
     <> seq 1 (length (parse_input_file lines_with_gap)).
Proof. split; [vm_compute; reflexivity | vm_compute; discriminate]. Qed.

Lemma parseable_shape (line : string) :
  parseable line = true <-> exists u t, line_shape (Str.strip line) u t.
Proof.
  unfold parseable, Re.match_.
  destruct (line_pattern (Str.strip line)) as [[u t]|] eqn:E.
  - split; [intros _ | reflexivity]. exists u, t. now apply line_pattern_shape.
  - split; [discriminate |]. intros (u & t & Hs). apply line_pattern_shape in Hs. congruence.
Qed.

(** C1 (amended): the id of every entry is the 1-based number of its line
    among all the lines of the input, skipped lines counted; the ids are the
    numbers of the kept lines (those of the expected shape) in increasing
    order, each entry carrying the [href] and the text of the anchor of its
    own line; they are 1..k when every line is kept. *)
Theorem parse_input_file_ids (lines : list string) :
  map id (parse_input_file lines)
  = map fst (List.filter (fun il => parseable il.2) (enumerate 1 lines))
  /\ (forall line, parseable line = true <-> exists u t, line_shape (Str.strip line) u t)
  /\ (forall e, e ∈ parse_input_file lines ->
        exists line, (1 <= id e)%nat /\ lines !! (id e - 1)%nat = Some line
                     /\ line_shape (Str.strip line) (url e) (title e))
  /\ StronglySorted lt (map id (parse_input_file lines))
  /\ (forallb parseable lines = true ->
        map id (parse_input_file lines) = seq 1 (length lines)).
Proof.
  rewrite parse_input_file_omap, omap_entry_ids.
  split; [reflexivity |]. split; [apply parseable_shape |]. repeat split.
  - intros e He. apply list_elem_of_omap in He as ([i line] & Hin & He).
    apply entry_of_line_id in He as (Hid & _ & Hm). simpl in *.
    apply enumerate_lookup in Hin as [Hle Hl]. rewrite Hid. exists line.
    repeat split; [exact Hle | exact Hl |]. now apply line_pattern_shape.
  - apply StronglySorted_filter_lt. rewrite enumerate_fst. apply StronglySorted_seq.
  - intros Hall. rewrite filter_all; [apply enumerate_fst |].
    now rewrite (forallb_enumerate parseable).
Qed.

Lemma parse_input_file_ids_witness :
  forallb parseable (drop 1 lines_with_gap) = true
  /\ map id (parse_input_file (drop 1 lines_with_gap)) = seq 1 1.
Proof.
  split; [vm_compute; reflexivity |].
  apply (parse_input_file_ids (drop 1 lines_with_gap)). vm_compute; reflexivity.
Defined.

(** ** DateExtractor *)

(** [re.search] returns the match at the leftmost position at which the
    pattern matches. *)
Lemma search_leftmost {A : Type} (p : string -> option A) (s : string) (g : A) :
  Re.search p s = Some g <-> leftmost_match p s g.
Proof.
  unfold leftmost_match. induction s as [|c s IH]; simpl.
  - destruct (p "") as [g'|] eqn:E.
    + split.
      * intros Heq; inversion Heq; subst. exists "", "". repeat split; [assumption |].
        intros a b Hab Hb. destruct a; destruct b; try discriminate; congruence.
      * intros (before & rest & Hs & Hp & _).
        destruct before; [| discriminate]. rewrite append_nil_l in Hs. subst. congruence.
    + split; [discriminate |]. intros (before & rest & Hs & Hp & _).
      destruct before; [| discriminate]. rewrite append_nil_l in Hs. subst. congruence.
  - destruct (p (String c s)) as [g'|] eqn:E.
    + split.
      * intros Heq; inversion Heq; subst. exists "", (String c s).
        repeat split; [assumption |].
        intros a b Hab Hb. destruct a; destruct b; try discriminate; congruence.
      * intros (before & rest & Hs & Hp & Hleft). destruct before as [|x before].
        -- rewrite append_nil_l in Hs. subst. congruence.
        -- specialize (Hleft "" (String x before) eq_refl).
           rewrite <- Hs in Hleft. rewrite Hleft in E; [discriminate | discriminate].
    + rewrite IH. split.
      * intros (before & rest & Hs & Hp & Hleft). exists (String c before), rest.
        repeat split; [now rewrite append_cons, Hs | assumption |].
        intros a b Hab Hb. destruct a as [|y a].
        -- rewrite append_nil_l in Hab. subst b. now rewrite append_cons, <- Hs.
        -- rewrite append_cons in Hab. inversion Hab; subst. exact (Hleft a b eq_refl Hb).
      * intros (before & rest & Hs & Hp & Hleft). destruct before as [|x before].
        -- rewrite append_nil_l in Hs. subst. congruence.
        -- rewrite append_cons in Hs. inversion Hs; subst. exists before, rest.
           repeat split; [assumption |].
           intros a b Hab Hb. apply (Hleft (String x a) b); [now rewrite append_cons, Hab | assumption].
Qed.

(** [re.search] finds nothing exactly when the pattern matches at no
    position. *)
Lemma search_None {A : Type} (p : string -> option A) (s : string) :
  Re.search p s = None <-> no_match p s.
Proof.
  unfold no_match. induction s as [|c s IH]; simpl.
  - destruct (p "") as [g|] eqn:E.
    + split; [discriminate |]. intros Hno. rewrite (Hno "" "" eq_refl) in E. discriminate.
    + split; [| reflexivity]. intros _ before rest Hs.
      destruct before; [| discriminate]. rewrite append_nil_l in Hs. now subst.
  - destruct (p (String c s)) as [g|] eqn:E.
    + split; [discriminate |]. intros Hno.
      rewrite (Hno "" (String c s) eq_refl) in E. discriminate.
    + rewrite IH. split.
      * intros Hno before rest Hs. destruct before as [|x before].
        -- rewrite append_nil_l in Hs. now subst.
        -- rewrite append_cons in Hs. inversion Hs; subst. now apply (Hno before rest).
      * intros Hno before rest Hs. apply (Hno (String c before) rest).
        now rewrite append_cons, Hs.
Qed.

Lemma plausible_spec (year month day : Z) :
  plausible year month day = true
  <-> (2024 <= year <= 2026)%Z /\ (1 <= month <= 12)%Z /\ (1 <= day <= 31)%Z.
Proof.
  unfold plausible. rewrite !andb_true_iff, !Z.leb_le. lia.
Qed.

Lemma accepts_not_rejects (pattern : string -> option date_groups) (url s : string) :
  accepts pattern url s -> rejects pattern url -> False.
Proof.
  intros (y & m & d & Hs & Hy & Hm & Hd & _) [Hn | (y' & m' & d' & Hs' & Hno)].
  - apply search_leftmost in Hs. apply search_None in Hn. congruence.
  - apply search_leftmost in Hs, Hs'. rewrite Hs in Hs'. inversion Hs'; subst.
    now apply Hno.
Qed.

(** One turn of the loop of [extract_date]. *)
Lemma extract_date_from_cons (pattern : string -> option date_groups)
    (rest : list (string -> option date_groups)) (url : string) :
  (exists s, accepts pattern url s
             /\ extract_date_from (pattern :: rest) url = Some s)
  \/ (rejects pattern url
      /\ extract_date_from (pattern :: rest) url = extract_date_from rest url).
Proof.
  simpl. destruct (Re.search pattern url) as [[[y m] d]|] eqn:Hs.
  - destruct (plausible (Str.int y) (Str.int m) (Str.int d)) eqn:Hp.
    + left. eexists; split; [| reflexivity].
      apply plausible_spec in Hp as (Hy & Hm & Hd). apply search_leftmost in Hs.
      now exists y, m, d.
    + right. split; [| reflexivity]. right. exists y, m, d.
      split; [now apply search_leftmost |].
      intros Hr. apply plausible_spec in Hr. congruence.
  - right. split; [left; now apply search_None | reflexivity].
Qed.

Lemma accepts_functional (pattern : string -> option date_groups) (url s s' : string) :
  accepts pattern url s -> accepts pattern url s' -> s = s'.
Proof.
  intros (y & m & d & Hs & _ & _ & _ & ->) (y' & m' & d' & Hs' & _ & _ & _ & ->).
  apply search_leftmost in Hs, Hs'. rewrite Hs in Hs'. now inversion Hs'.
Qed.

Lemma extract_date_from_Some (patterns : list (string -> option date_groups))
    (url s : string) :
  extract_date_from patterns url = Some s
  <-> exists k pattern,
        patterns !! k = Some pattern /\ accepts pattern url s
        /\ forall j earlier, (j < k)%nat -> patterns !! j = Some earlier -> rejects earlier url.
Proof.
  induction patterns as [|p rest IH].
  - simpl. split; [discriminate |]. now intros (k & q & Hk & _).
  - destruct (extract_date_from_cons p rest url) as [(s' & Hacc & ->) | (Hrej & ->)].
    + split.
      * intros Heq; inversion Heq; subst. exists 0%nat, p. repeat split; [assumption |].
        intros j q Hj; lia.
      * intros (k & q & Hk & Hacc' & Hearlier). destruct k as [|k].
        -- simpl in Hk. inversion Hk; subst. f_equal.
           eapply accepts_functional; eassumption.
        -- exfalso. apply (accepts_not_rejects p url s' Hacc).
           apply (Hearlier 0%nat p); [lia | reflexivity].
    + rewrite IH. split.
      * intros (k & q & Hk & Hacc & Hearlier). exists (S k), q. repeat split; try assumption.
        intros j r Hj Hr. destruct j as [|j]; [simpl in Hr; now inversion Hr; subst |].
        apply (Hearlier j r); [lia | exact Hr].
      * intros (k & q & Hk & Hacc & Hearlier). destruct k as [|k].
        -- simpl in Hk. inversion Hk; subst. exfalso.
           eapply accepts_not_rejects; eassumption.
        -- exists k, q. repeat split; try assumption.
           intros j r Hj Hr. apply (Hearlier (S j) r); [lia | exact Hr].
Qed.

Lemma extract_date_from_None (patterns : list (string -> option date_groups))
    (url : string) :
  extract_date_from patterns url = None
  <-> forall pattern, pattern ∈ patterns -> rejects pattern url.
Proof.
  induction patterns as [|p rest IH].
  - simpl. split; [| reflexivity]. intros _ q Hq. now apply elem_of_nil in Hq.
  - destruct (extract_date_from_cons p rest url) as [(s' & Hacc & ->) | (Hrej & ->)].
    + split; [discriminate |]. intros Hall. exfalso.
      apply (accepts_not_rejects p url s' Hacc). apply Hall. apply list_elem_of_here.
    + rewrite IH. split.
      * intros Hall q Hq. apply elem_of_cons in Hq as [-> | Hq]; [assumption | now apply Hall].
      * intros Hall q Hq. apply Hall. now apply list_elem_of_further.
Qed.

(** C3, as stated, fails: in this URL the first pattern matches
    [/1999/01/01/], whose year fails the test, and the code goes on to the
    third pattern and returns a date where the claim has none. *)
Lemma extract_date_goes_on :
  extract_date "https://x.example/1999/01/01/20250307" = Some "2025-03-07"
  /\ extract_date_first_wins "https://x.example/1999/01/01/20250307" = None.
Proof. split; vm_compute; reflexivity. Qed.

(** C3 (amended): the three patterns are tried in the order
    [/YYYY/MM/DD/] (month and day of one or two digits), [/YYYY-MM-DD],
    [YYYYMMDD], each through its leftmost match only; the result is the
    date of the first pattern whose leftmost match has year in 2024..2026,
    month in 1..12 and day in 1..31 (no calendar check), every earlier
    pattern having no match or a leftmost match failing the test; the
    result is none exactly when every pattern has no match or a leftmost
    match failing the test. *)
Theorem extract_date_first_plausible (url : string) :
  date_patterns = [pattern_slashes; pattern_dashes; pattern_compact]
  /\ (forall s y m d,
        (pattern_slashes s = Some (y, m, d) <-> slashes_shape s y m d)
        /\ (pattern_dashes s = Some (y, m, d) <-> dashes_shape s y m d)
        /\ (pattern_compact s = Some (y, m, d) <-> compact_shape s y m d))
  /\ (forall s,
        extract_date url = Some s
        <-> exists k pattern,
              date_patterns !! k = Some pattern /\ accepts pattern url s
              /\ forall j earlier, (j < k)%nat -> date_patterns !! j = Some earlier ->
                                   rejects earlier url)
  /\ (extract_date url = None
      <-> forall pattern, pattern ∈ date_patterns -> rejects pattern url).
Proof.
  split; [reflexivity |]. split; [| split].
  - intros s y m d. split; [apply pattern_slashes_shape | split].
    + apply pattern_dashes_shape.
    + apply pattern_compact_shape.
  - intros s. apply extract_date_from_Some.
  - apply extract_date_from_None.
Qed.

(** ** Classifier: scoring *)

Lemma fold_add_shift (l : list nat) (a : nat) :
  fold_left Nat.add l a = (a + fold_left Nat.add l 0)%nat.
Proof.
  revert a; induction l as [|x l IH]; intros a; simpl; [lia |].
  rewrite (IH (a + x)%nat), (IH x). lia.
Qed.

Lemma py_sum_cons (x : nat) (l : list nat) : py_sum (x :: l) = (x + py_sum l)%nat.
Proof. unfold py_sum; simpl. now rewrite fold_add_shift. Qed.

Lemma py_sum_ones {A : Type} (l : list A) : py_sum (map (fun _ => 1%nat) l) = length l.
Proof.
  induction l as [|x l IH]; [reflexivity |].
  change (map (fun _ => 1%nat) (x :: l)) with (1%nat :: map (fun _ => 1%nat) l).
  rewrite py_sum_cons, IH. reflexivity.
Qed.

(** The score of a theme is the number of its patterns that occur in the
    text, each counted once however often it occurs. *)
Lemma theme_score_counts (text : string) (patterns : list string) :
  counts (fun pattern => occurs pattern text) patterns (theme_score text patterns).
Proof.
  unfold theme_score. rewrite py_sum_ones.
  induction patterns as [|p l IH]; simpl; [constructor |].
  destruct (Str.contains p text) eqn:E; simpl.
  - constructor; [now apply contains_occurs | exact IH].
  - constructor; [now apply contains_false | exact IH].
Qed.

Lemma counts_functional (P : string -> Prop) (l : list string) (n m : nat) :
  counts P l n -> counts P l m -> n = m.
Proof.
  intros Hn; revert m; induction Hn; intros m Hm; inversion Hm; subst;
    try reflexivity; try contradiction; auto.
Qed.

(** *** The dict of scores *)

Lemma dict_set_fresh {V : Type} (d : list (string * V)) (k : string) (v : V) :
  k ∉ map fst d -> dict_set d k v = (d ++ [(k, v)])%list.
Proof.
  induction d as [|[k' v'] d IH]; simpl; intros Hk; [reflexivity |].
  apply not_elem_of_cons in Hk as [Hne Hk].
  destruct (String.eqb_spec k' k) as [->|_]; [contradiction |].
  now rewrite IH.
Qed.

Lemma scored_keys (score : list string -> nat) (table : list (string * list string))
    (k : string) :
  k ∈ map fst (scored score table) -> k ∈ map fst table.
Proof.
  unfold scored. induction table as [|[t ps] table IH]; simpl; [trivial |].
  destruct (0 <? score ps)%nat; simpl; rewrite ?elem_of_cons; intuition.
Qed.

Lemma score_fold (score : list string -> nat) (table : list (string * list string))
    (acc : list (string * nat)) :
  NoDup (map fst table) ->
  (forall k, k ∈ map fst acc -> k ∉ map fst table) ->
  fold_left (score_step score) table acc = (acc ++ scored score table)%list.
Proof.
  revert acc; induction table as [|[t ps] table IH]; intros acc Hnd Hacc.
  - unfold scored; simpl. now rewrite app_nil_r.
  - simpl in Hnd. apply NoDup_cons in Hnd as [Ht Hnd].
    assert (Hfresh : t ∉ map fst acc).
    { intros Hin. apply (Hacc t Hin). simpl. apply list_elem_of_here. }
    unfold scored; simpl. destruct (0 <? score ps)%nat eqn:Hpos.
    + rewrite dict_set_fresh by exact Hfresh. rewrite IH; [| exact Hnd |].
      * now rewrite <- app_assoc.
      * intros k Hk. rewrite map_app, elem_of_app in Hk. destruct Hk as [Hk | Hk].
        -- apply Hacc in Hk. simpl in Hk. now apply not_elem_of_cons in Hk.
        -- simpl in Hk. apply list_elem_of_singleton in Hk. now subst.
    + rewrite IH; [reflexivity | exact Hnd |].
      intros k Hk. apply Hacc in Hk. simpl in Hk. now apply not_elem_of_cons in Hk.
Qed.

Lemma THEMES_keys_NoDup : NoDup (map fst THEMES).
Proof. apply (bool_decide_unpack _). vm_compute. reflexivity. Qed.

(** The loop over [THEMES] keeps, in declaration order, the themes that
    score. *)
Lemma score_themes_scored (score : list string -> nat) :
  score_themes score = scored score THEMES.
Proof.
  unfold score_themes.
  change (fold_left (score_step score) THEMES [] = scored score THEMES).
  rewrite score_fold; [reflexivity | apply THEMES_keys_NoDup |].
  intros k Hk. now apply elem_of_nil in Hk.
Qed.

(** *** The stable descending sort *)

Section Sorting.
Context {A : Type} (key : A -> nat).

Lemma insert_desc_perm (x : A) (l : list A) : Permutation (insert_desc key x l) (x :: l).
Proof.
  induction l as [|y l IH]; simpl; [reflexivity |].
  destruct (key x <? key y)%nat; [| reflexivity].
  rewrite IH. apply perm_swap.
Qed.

Lemma sorted_desc_perm (l : list A) : Permutation (sorted_desc key l) l.
Proof.
  induction l as [|x l IH]; simpl; [reflexivity |].
  rewrite insert_desc_perm. now constructor.
Qed.

Lemma insert_desc_sorted (x : A) (l : list A) :
  StronglySorted (fun a b => (key b <= key a)%nat) l ->
  StronglySorted (fun a b => (key b <= key a)%nat) (insert_desc key x l).
Proof.
  induction l as [|y l IH]; simpl; intros Hs.
  - constructor; [constructor | constructor].
  - apply StronglySorted_inv in Hs as [Hs Hall].
    destruct (key x <? key y)%nat eqn:E.
    + apply Nat.ltb_lt in E. constructor; [now apply IH |].
      rewrite List.Forall_forall. intros z Hz.
      apply (Permutation_in _ (insert_desc_perm x l)) in Hz. destruct Hz as [<- | Hz].
      * lia.
      * rewrite List.Forall_forall in Hall. now apply Hall.
    + apply Nat.ltb_ge in E. constructor; [now constructor |].
      constructor; [exact E |].
      rewrite List.Forall_forall in *. intros z Hz. specialize (Hall z Hz). lia.
Qed.

Lemma sorted_desc_sorted (l : list A) :
  StronglySorted (fun a b => (key b <= key a)%nat) (sorted_desc key l).
Proof.
  induction l as [|x l IH]; simpl; [constructor | now apply insert_desc_sorted].
Qed.

Lemma insert_desc_stable (n : nat) (x : A) (l : list A) :
  filter (fun a => key a = n) (insert_desc key x l)
  = filter (fun a => key a = n) (x :: l).
Proof.
  induction l as [|y l IH]; simpl; [reflexivity |].
  destruct (key x <? key y)%nat eqn:E; [| reflexivity].
  apply Nat.ltb_lt in E. rewrite (filter_cons _ y), IH, !filter_cons.
  destruct (decide (key y = n)), (decide (key x = n)); try reflexivity. lia.
Qed.

(** Items with the same key leave the sort in the order they came in. *)
Lemma sorted_desc_stable (n : nat) (l : list A) :
  filter (fun a => key a = n) (sorted_desc key l) = filter (fun a => key a = n) l.
Proof.
  induction l as [|x l IH]; simpl; [reflexivity |].
  rewrite insert_desc_stable, !filter_cons, IH. reflexivity.
Qed.

End Sorting.

Lemma sorted_desc_ranking (l : list (string * nat)) : ranking l (sorted_desc snd l).
Proof.
  split; [apply sorted_desc_perm |]. split; [apply (sorted_desc_sorted snd) |].
  intros n. apply (sorted_desc_stable snd).
Qed.

(** ** Classifier: tagging *)

Lemma filter_bool_Prop (l : list (string * nat)) :
  List.filter (fun x => (0 <? x.2)%nat) l
  = filter (fun x : string * nat => (0 < x.2)%nat) l.
Proof.
  induction l as [|x l IH]; [reflexivity |].
  rewrite filter_cons; simpl. rewrite IH.
  destruct (Nat.ltb_spec 0 x.2), (decide (0 < x.2)%nat); try reflexivity; lia.
Qed.

Lemma zip_keys_scores {V : Type} (f : list string -> V) (table : list (string * list string)) :
  zip (map fst table) (map (fun tp => f tp.2) table) = map (fun tp => (tp.1, f tp.2)) table.
Proof. induction table as [|tp table IH]; simpl; [reflexivity | now rewrite IH]. Qed.

Lemma default_themes_cases (domain : string) :
  default_themes domain = ["justice"] \/ default_themes domain = ["government"].
Proof.
  unfold default_themes.
  destruct (Str.contains "supreme" domain || Str.contains "scotus" domain); [now left |].
  destruct (existsb _ _); now right.
Qed.

Section TaggingFacts.
Context `{PyRuntime}.

(** What [tag_entry] comes to, by whether a theme scored. *)
Lemma tag_entry_cases (entry : NewsEntry) :
  let text := Str.lower (url entry +:+ " " +:+ title entry) in
  let top := top_themes (score_themes (theme_score text)) in
  let tagged := set_keywords (set_themes entry top) (top_keywords text) in
  match top with
  | [] =>
      match urlparse_netloc (url entry) with
      | Some domain => tag_entry entry = Ok (set_themes tagged (default_themes domain))
      | None => tag_entry entry = Raise ValueError
      end
  | _ :: _ => tag_entry entry = Ok tagged
  end.
Proof.
  intros text top tagged. unfold tag_entry. fold text. fold top. fold tagged.
  change (themes tagged) with top. change (url tagged) with (url entry).
  destruct top; [| reflexivity].
  now destruct (urlparse_netloc (url entry)).
Qed.

Lemma top_themes_length (theme_scores : list (string * nat)) :
  (length (top_themes theme_scores) <= 2)%nat.
Proof.
  unfold top_themes. rewrite length_map, length_take. lia.
Qed.

Lemma top_keywords_bounded (text : string) :
  (length (top_keywords text) <= 3)%nat /\ NoDup (top_keywords text).
Proof.
  unfold top_keywords. split; [rewrite length_take; lia |].
  eapply sublist_NoDup; [apply set_iter_NoDup | apply sublist_take].
Qed.

End TaggingFacts.

(** C4: initial tagging gives every theme of the taxonomy the number of its
    patterns that occur in the lower-cased [url title] text, each pattern
    counted once; the themes of positive score are ranked by descending
    score, equal scores in declaration order, and the first two are the
    themes of the entry. (When no theme scores the default theme is
    assigned instead.) *)
Theorem tag_entry_theme_ranking `{PyRuntime} (entry : NewsEntry) :
  exists (scores : list nat) (ranked : list (string * nat)),
    Forall2 (fun tp n =>
               counts (fun pattern =>
                         occurs pattern (Str.lower (url entry +:+ " " +:+ title entry)))
                      tp.2 n)
            THEMES scores
    /\ ranking (filter (fun x : string * nat => (0 < x.2)%nat) (zip (map fst THEMES) scores))
               ranked
    /\ match map fst (take 2 ranked) with
       | [] => forall e', tag_entry entry = Ok e' ->
                          themes e' = ["justice"] \/ themes e' = ["government"]
       | top => exists e', tag_entry entry = Ok e' /\ themes e' = top
       end.
Proof.
  set (text := Str.lower (url entry +:+ " " +:+ title entry)).
  exists (map (fun tp => theme_score text tp.2) THEMES),
         (sorted_desc snd (score_themes (theme_score text))).
  split; [| split].
  - apply Forall2_fmap_r, Forall_Forall2_diag, List.Forall_forall.
    intros tp _. apply theme_score_counts.
  - rewrite zip_keys_scores, <- filter_bool_Prop. fold (scored (theme_score text) THEMES).
    rewrite <- score_themes_scored. apply sorted_desc_ranking.
  - pose proof (tag_entry_cases entry) as Hc. simpl in Hc. fold text in Hc.
    unfold top_themes in Hc.
    destruct (map fst (take 2 (sorted_desc snd (score_themes (theme_score text)))))
      as [|t ts] eqn:Htop.
    + intros e' He'. destruct (urlparse_netloc (url entry)) as [domain|].
      * rewrite Hc in He'. inversion He'; subst; simpl. apply default_themes_cases.
      * rewrite Hc in He'. discriminate.
    + eexists; split; [exact Hc | reflexivity].
Qed.

(** ** ContentEnricher: the targets *)

Lemma bluesky_from_lookup (l : list NewsEntry) (start i : nat) :
  i ∈ bluesky_from start l
  <-> exists e, (start <= i)%nat /\ l !! (i - start)%nat = Some e /\ is_bluesky e = true.
Proof.
  revert start; induction l as [|x l IH]; intros start; simpl.
  - rewrite elem_of_nil. split; [tauto |]. now intros (e & _ & He & _).
  - assert (Hstep : i ∈ bluesky_from (S start) l
                    <-> exists e, (S start <= i)%nat
                                  /\ (x :: l) !! (i - start)%nat = Some e
                                  /\ is_bluesky e = true).
    { rewrite IH. split; intros (e & Hle & He & Hb); exists e; repeat split; try lia; trivial.
      - replace (i - start)%nat with (S (i - S start)) by lia. exact He.
      - replace (i - start)%nat with (S (i - S start)) in He by lia. exact He. }
    destruct (is_bluesky x) eqn:Hx.
    + rewrite elem_of_cons, Hstep. split.
      * intros [-> | (e & Hle & He & Hb)].
        -- exists x. rewrite Nat.sub_diag. auto.
        -- exists e. repeat split; trivial; lia.
      * intros (e & Hle & He & Hb). destruct (decide (i = start)) as [-> | Hne]; [now left |].
        right. exists e. repeat split; trivial; lia.
    + rewrite Hstep. split.
      * intros (e & Hle & He & Hb). exists e. repeat split; trivial; lia.
      * intros (e & Hle & He & Hb). exists e. repeat split; trivial.
        destruct (decide (i = start)) as [-> | Hne]; [| lia].
        rewrite Nat.sub_diag in He. simpl in He. inversion He; subst. congruence.
Qed.

Lemma bluesky_from_length (l : list NewsEntry) (start : nat) :
  length (bluesky_from start l) = length (List.filter is_bluesky l).
Proof.
  revert start; induction l as [|x l IH]; intros start; simpl; [reflexivity |].
  destruct (is_bluesky x); simpl; now rewrite IH.
Qed.

Lemma bluesky_from_urls (l all : list NewsEntry) (prefix : list NewsEntry) :
  all = (prefix ++ l)%list ->
  omap (fun i => url <$> all !! i) (bluesky_from (length prefix) l)
  = map url (List.filter is_bluesky l).
Proof.
  revert prefix; induction l as [|x l IH]; intros prefix Hall; simpl; [reflexivity |].
  assert (Hnext : omap (fun i => url <$> all !! i) (bluesky_from (S (length prefix)) l)
                  = map url (List.filter is_bluesky l)).
  { specialize (IH (prefix ++ [x])%list). rewrite length_app in IH. simpl in IH.
    rewrite Nat.add_1_r in IH. apply IH. now rewrite <- app_assoc. }
  destruct (is_bluesky x); [| exact Hnext].
  cbn. rewrite Hall, lookup_app_r, Nat.sub_diag by lia. cbn.
  f_equal. rewrite <- Hall. exact Hnext.
Qed.

Lemma task_urls_filter (p : DiaryProcessor) :
  task_urls p = map url (List.filter is_bluesky (entries p)).
Proof. apply (bluesky_from_urls (entries p) (entries p) []). reflexivity. Qed.

(** ** ContentEnricher: the batch of fetches *)

Lemma gather_from_length (net : nat -> http_outcome) (k : nat)
    (cache0 cache : gmap string string) (urls : list string) :
  length (gather_from net k cache0 urls cache).1 = length urls.
Proof.
  revert k cache; induction urls as [|u urls IH]; intros k cache; simpl; [reflexivity |].
  destruct (fetch_bluesky_content (net k) u cache0) as [[content cache_u] trace].
  specialize (IH (S k) (match cache_u !! u with Some c => <[u:=c]> cache | None => cache end)).
  destruct (gather_from net (S k) cache0 urls _) as [contents cache'']. simpl in *.
  now rewrite IH.
Qed.

(** Task [k + j] returns what [fetch_bluesky_content] returns for its URL
    on the cache the phase started with. *)
Lemma gather_from_lookup (net : nat -> http_outcome) (k : nat)
    (cache0 cache : gmap string string) (urls : list string) (j : nat) (u : string) :
  urls !! j = Some u ->
  (gather_from net k cache0 urls cache).1 !! j
  = Some (fetch_bluesky_content (net (k + j)%nat) u cache0).1.1.
Proof.
  revert k cache j; induction urls as [|v urls IH]; intros k cache j Hj; [discriminate |].
  simpl. destruct (fetch_bluesky_content (net k) v cache0) as [[content cache_v] trace] eqn:Hf.
  specialize (IH (S k) (match cache_v !! v with Some c => <[v:=c]> cache | None => cache end)).
  destruct (gather_from net (S k) cache0 urls _) as [contents cache'']. simpl in *.
  destruct j as [|j]; simpl in *.
  - inversion Hj; subst. now rewrite Nat.add_0_r, Hf.
  - replace (k + S j)%nat with (S k + j)%nat by lia. exact (IH j Hj).
Qed.

Lemma task_contents_length (net : nat -> http_outcome) (p : DiaryProcessor) :
  length (task_contents net p) = length (bluesky_entries (entries p)).
Proof.
  unfold task_contents, gather. rewrite gather_from_length, task_urls_filter, length_map.
  unfold bluesky_entries. now rewrite bluesky_from_length.
Qed.

Section EnrichmentFacts.
Context `{PyRuntime}.

Lemma enrich_step_here (prefix rest : list NewsEntry) (e : NewsEntry) (c : option string) :
  enrich_step (prefix ++ e :: rest)%list (length prefix, c)
  = (prefix ++ enrich_entry c e :: rest)%list.
Proof.
  unfold enrich_step, enrich_entry.
  rewrite list_lookup_middle by reflexivity.
  destruct c as [[|a r]|]; simpl; try reflexivity.
  now rewrite insert_app_r_alt, Nat.sub_diag by lia.
Qed.

(** The loop over [zip(bluesky_entries, contents)], which updates the
    objects in place, leaves [self.entries] as [enrich_all] reads it. *)
Lemma enrich_fold (l prefix : list NewsEntry) (contents : list (option string)) :
  fold_left enrich_step (zip (bluesky_from (length prefix) l) contents) (prefix ++ l)%list
  = (prefix ++ enrich_all l contents)%list.
Proof.
  revert prefix contents; induction l as [|e l IH]; intros prefix contents; simpl.
  - reflexivity.
  - assert (Hnext : forall x cs,
              fold_left enrich_step (zip (bluesky_from (S (length prefix)) l) cs)
                        (prefix ++ x :: l)%list
              = (prefix ++ x :: enrich_all l cs)%list).
    { intros x cs. specialize (IH (prefix ++ [x])%list cs).
      rewrite length_app in IH. simpl in IH. rewrite Nat.add_1_r, <- !app_assoc in IH.
      exact IH. }
    destruct (is_bluesky e); [| apply Hnext].
    destruct contents as [|c cs]; [reflexivity |].
    change (fold_left enrich_step (zip (bluesky_from (S (length prefix)) l) cs)
              (enrich_step (prefix ++ e :: l)%list (length prefix, c))
            = (prefix ++ enrich_entry c e :: enrich_all l cs)%list).
    rewrite enrich_step_here. apply Hnext.
Qed.

Lemma process_bluesky_entries_entries (net : nat -> http_outcome) (p : DiaryProcessor) :
  entries (process_bluesky_entries net p) = enrich_all (entries p) (task_contents net p).
Proof.
  pose proof (enrich_fold (entries p) [] (task_contents net p)) as Hfold.
  simpl in Hfold. fold (bluesky_entries (entries p)) in Hfold.
  pose proof (task_contents_length net p) as Hlen.
  unfold process_bluesky_entries. fold (task_urls p).
  unfold task_contents in *.
  destruct (gather net (bluesky_content_cache p) (task_urls p)) as [contents cache] eqn:Hg.
  simpl in *. destruct (bluesky_entries (entries p)) as [|i targets] eqn:Ht.
  - destruct contents; [| discriminate]. simpl in Hfold. exact Hfold.
  - simpl. exact Hfold.
Qed.

End EnrichmentFacts.

(** ** ContentEnricher: what a run leaves in the entries *)

Section RunFacts.
Context `{PyRuntime}.

Lemma enrich_entry_cases (c : option string) (e : NewsEntry) :
  (truthy c = false /\ enrich_entry c e = e)
  \/ (exists text, c = Some text /\ truthy c = true
      /\ enrich_entry c e
         = tag_entry_with_content (set_content_snippet e (Some text)) text).
Proof.
  destruct c as [[|a r]|]; simpl; auto.
  right. now exists (String a r).
Qed.

Lemma enrich_entry_snippet (c : option string) (e : NewsEntry) :
  content_snippet e = None -> has_snippet (enrich_entry c e) = truthy c.
Proof.
  intros He. destruct c as [[|a r]|]; simpl; unfold has_snippet; try now rewrite He.
  reflexivity.
Qed.

Lemma enrich_all_count (l : list NewsEntry) (contents : list (option string)) :
  Forall (fun e => content_snippet e = None) l ->
  length contents = length (List.filter is_bluesky l) ->
  length (List.filter has_snippet (enrich_all l contents))
  = length (List.filter truthy contents).
Proof.
  intros Hall; revert contents; induction Hall as [|e l He Hall IH]; intros contents Hlen.
  - destruct contents; [reflexivity | discriminate].
  - simpl in *. destruct (is_bluesky e).
    + destruct contents as [|c cs]; [discriminate |]. simpl in *.
      rewrite (enrich_entry_snippet c e He). destruct (truthy c); simpl; rewrite IH; auto.
    + simpl. unfold has_snippet at 1. rewrite He. now apply IH.
Qed.

Lemma enrich_all_target (l : list NewsEntry) (contents : list (option string))
    (start k i : nat) (c : option string) :
  bluesky_from start l !! k = Some i -> contents !! k = Some c ->
  exists e, (start <= i)%nat /\ l !! (i - start)%nat = Some e
            /\ enrich_all l contents !! (i - start)%nat = Some (enrich_entry c e).
Proof.
  revert contents start k; induction l as [|x l IH]; intros contents start k Hk Hc;
    [discriminate |].
  simpl in Hk. simpl. destruct (is_bluesky x).
  - destruct contents as [|c0 cs]; [discriminate |].
    destruct k as [|k]; simpl in Hk, Hc.
    + inversion Hk; inversion Hc; subst. exists x. rewrite Nat.sub_diag. auto.
    + destruct (IH cs (S start) k Hk Hc) as (e & Hle & He & He').
      exists e. replace (i - start)%nat with (S (i - S start)) by lia.
      split; [lia | split; assumption].
  - destruct (IH contents (S start) k Hk Hc) as (e & Hle & He & He').
    exists e. replace (i - start)%nat with (S (i - S start)) by lia.
    split; [lia | split; assumption].
Qed.

Lemma enrich_all_other (l : list NewsEntry) (contents : list (option string))
    (j : nat) (e : NewsEntry) :
  l !! j = Some e -> is_bluesky e = false -> enrich_all l contents !! j = Some e.
Proof.
  revert contents j; induction l as [|x l IH]; intros contents j Hj He; [discriminate |].
  simpl. destruct j as [|j]; simpl in Hj.
  - inversion Hj; subst. now rewrite He.
  - destruct (is_bluesky x).
    + destruct contents as [|c cs]; simpl; [exact Hj | now apply IH].
    + simpl. now apply IH.
Qed.

Lemma tag_entry_with_content_bounded (entry : NewsEntry) (content : string) :
  tags_bounded (tag_entry_with_content entry content).
Proof.
  unfold tags_bounded, tag_entry_with_content; simpl.
  split; [apply top_themes_length | apply top_keywords_bounded].
Qed.

Lemma tag_entry_bounded (entry e' : NewsEntry) :
  tag_entry entry = Ok e' -> tags_bounded e'.
Proof.
  pose proof (tag_entry_cases entry) as Hc. simpl in Hc. intros He'.
  assert (Hkw := top_keywords_bounded (Str.lower (url entry +:+ " " +:+ title entry))).
  assert (Hth := top_themes_length
                   (score_themes (theme_score (Str.lower (url entry +:+ " " +:+ title entry))))).
  destruct (top_themes _) as [|t ts].
  - destruct (urlparse_netloc (url entry)) as [domain|]; rewrite Hc in He';
      [| discriminate].
    inversion He'; subst. unfold tags_bounded; simpl.
    split; [| exact Hkw]. destruct (default_themes_cases domain) as [-> | ->]; simpl; lia.
  - rewrite Hc in He'. inversion He'; subst. unfold tags_bounded; simpl.
    split; [exact Hth | exact Hkw].
Qed.

Lemma tag_all_bounded (l l' : list NewsEntry) :
  tag_all l = Ok l' -> Forall tags_bounded l'.
Proof.
  revert l'; induction l as [|e l IH]; intros l' Hl; simpl in Hl.
  - inversion Hl. constructor.
  - destruct (tag_entry e) as [e'|x] eqn:He; [| discriminate].
    destruct (tag_all l) as [r'|x]; [| discriminate].
    inversion Hl; subst. constructor; [now apply (tag_entry_bounded e) | now apply IH].
Qed.

Lemma enrich_all_bounded (l : list NewsEntry) (contents : list (option string)) :
  Forall tags_bounded l -> Forall tags_bounded (enrich_all l contents).
Proof.
  intros Hall; revert contents; induction Hall as [|e l He Hall IH]; intros contents;
    simpl; [constructor |].
  destruct (is_bluesky e).
  - destruct contents as [|c cs]; [now constructor |].
    constructor; [| apply IH].
    destruct (enrich_entry_cases c e) as [[_ ->] | (text & _ & _ & ->)];
      [exact He | apply tag_entry_with_content_bounded].
  - constructor; [exact He | apply IH].
Qed.

End RunFacts.

(** C7: after either tagging operation the entry has at most two themes
    and at most three keywords, no keyword twice; so has every entry at the
    end of a run. *)
Theorem tags_always_bounded `{PyRuntime} :
  (forall entry, match tag_entry entry with
                 | Ok e' => tags_bounded e'
                 | Raise _ => True
                 end)
  /\ (forall entry content, tags_bounded (tag_entry_with_content entry content))
  /\ (forall net lines, match process net lines with
                        | Ok p => Forall tags_bounded (entries p)
                        | Raise _ => True
                        end).
Proof.
  split; [| split].
  - intros entry. destruct (tag_entry entry) as [e'|x] eqn:He; [| exact I].
    now apply (tag_entry_bounded entry).
  - apply tag_entry_with_content_bounded.
  - intros net lines. unfold process.
    destruct (tag_all (parse_input_file lines)) as [l|x] eqn:Hl; [| exact I].
    rewrite process_bluesky_entries_entries. apply enrich_all_bounded.
    now apply (tag_all_bounded (parse_input_file lines)).
Qed.

(** ** ContentEnricher: the cache *)

Lemma fetch_cached (outcome : http_outcome) (url cached : string)
    (cache : gmap string string) :
  cache !! url = Some cached ->
  fetch_bluesky_content outcome url cache = (Some cached, cache, []).
Proof. intros Hc. unfold fetch_bluesky_content. now rewrite Hc. Qed.

Lemma fetch_failure (outcome : http_outcome) (url : string) (cache : gmap string string) :
  cache !! url = None -> fetch_fails outcome ->
  fetch_bluesky_content outcome url cache = (None, cache, [Get url]).
Proof.
  intros Hc Hf. unfold fetch_bluesky_content. rewrite Hc.
  destruct outcome as [|status page]; [reflexivity |]. unfold fetch_fails in Hf.
  destruct (Z.eqb_spec status 200%Z) as [-> | Hne]; [| reflexivity].
  destruct Hf as [Hf | [-> | ->]]; [contradiction | reflexivity | reflexivity].
Qed.

Lemma fetch_success (outcome : http_outcome) (url : string) (cache : gmap string string) :
  cache !! url = None -> ~ fetch_fails outcome ->
  exists page content,
    outcome = Response 200 page
    /\ select_content content_selectors page = Some (Some content)
    /\ fetch_bluesky_content outcome url cache
       = (Some (Str.take 500 content), <[url := Str.take 500 content]> cache, [Get url]).
Proof.
  intros Hc Hf. unfold fetch_bluesky_content. rewrite Hc.
  destruct outcome as [|status page]; unfold fetch_fails in Hf; [now destruct Hf |].
  destruct (Z.eqb_spec status 200%Z) as [-> | Hne]; [| exfalso; apply Hf; now left].
  destruct (select_content content_selectors page) as [[content|]|] eqn:Hs.
  - now exists page, content.
  - exfalso. apply Hf. auto.
  - exfalso. apply Hf. auto.
Qed.

Lemma fetch_fails_dec (outcome : http_outcome) : fetch_fails outcome \/ ~ fetch_fails outcome.
Proof.
  destruct outcome as [|status page]; unfold fetch_fails; [now left |].
  destruct (Z.eq_dec status 200%Z) as [-> | Hne]; [| left; now left].
  destruct (select_content content_selectors page) as [[content|]|].
  - right. intros [Hf | [Hf | Hf]]; congruence.
  - left. auto.
  - left. auto.
Qed.

(** C10: a fetch that fails (the request raises, the status is not 200, no
    selector finds content) returns nothing and leaves the cache as it
    was, so the next request for the same URL goes to the network again and
    is decided by what the network answers then; the cache changes only by
    receiving the text of a successful extraction. *)
Theorem failed_fetch_not_cached (outcome : http_outcome) (url : string)
    (cache : gmap string string) :
  cache !! url = None ->
  fetch_fails outcome ->
  fetch_bluesky_content outcome url cache = (None, cache, [Get url])
  /\ (forall again,
        let cache' := (fetch_bluesky_content outcome url cache).1.2 in
        (fetch_bluesky_content again url cache').2 = [Get url]
        /\ fetch_bluesky_content again url cache' = fetch_bluesky_content again url cache)
  /\ (forall other u c,
        (fetch_bluesky_content other u c).1.2 = c
        \/ exists content,
             ~ fetch_fails other
             /\ (fetch_bluesky_content other u c).1.1 = Some content
             /\ (fetch_bluesky_content other u c).1.2 = <[u := content]> c).
Proof.
  intros Hc Hf. pose proof (fetch_failure outcome url cache Hc Hf) as Hfail.
  split; [exact Hfail | split].
  - intros again cache'. subst cache'. rewrite Hfail. simpl. split; [| reflexivity].
    destruct (fetch_fails_dec again) as [Ha | Ha].
    + now rewrite (fetch_failure again url cache Hc Ha).
    + destruct (fetch_success again url cache Hc Ha) as (page & content & _ & _ & ->).
      reflexivity.
  - intros other u c. destruct (c !! u) as [cached|] eqn:Hu.
    + left. now rewrite (fetch_cached other u cached c Hu).
    + destruct (fetch_fails_dec other) as [Ha | Ha].
      * left. now rewrite (fetch_failure other u c Hu Ha).
      * right. destruct (fetch_success other u c Hu Ha) as (page & content & _ & _ & ->).
        exists (Str.take 500 content). auto.
Qed.

Lemma failed_fetch_not_cached_witness :
  fetch_bluesky_content (Response 404 page_without_content)
    "https://bsky.app/profile/a.example/post/1" ∅
  = (None, ∅, [Get "https://bsky.app/profile/a.example/post/1"]).
Proof.
  apply (failed_fetch_not_cached (Response 404 page_without_content)
           "https://bsky.app/profile/a.example/post/1" ∅).
  - reflexivity.
  - left. discriminate.
Defined.

(** ** ContentEnricher: eligibility *)

(** C9: an entry is a target of enrichment, and is counted as a Bluesky
    entry in the statistics, exactly when [bsky.app] occurs somewhere in
    its URL; the host is not singled out, so an article on another host
    whose query string holds [bsky.app] is a target. *)
Theorem bluesky_eligibility_is_substring :
  (forall e, is_bluesky e = true <-> occurs "bsky.app" (url e))
  /\ (forall l i, i ∈ bluesky_entries l
                  <-> exists e, l !! i = Some e /\ occurs "bsky.app" (url e))
  /\ (forall l, bluesky_count l = length (bluesky_entries l))
  /\ (Urllib.netloc (url article_with_bsky_query) = Some "news.example"
      /\ ~ occurs "bsky.app" "news.example"
      /\ bluesky_entries [article_with_bsky_query] = [0%nat]
      /\ bluesky_count [article_with_bsky_query] = 1%nat).
Proof.
  split; [| split; [| split]].
  - intros e. apply contains_occurs.
  - intros l i. unfold bluesky_entries. rewrite bluesky_from_lookup. rewrite Nat.sub_0_r.
    split.
    + intros (e & _ & He & Hb). exists e. split; [exact He | now apply contains_occurs].
    + intros (e & He & Hb). exists e. repeat split; [lia | exact He | now apply contains_occurs].
  - intros l. unfold bluesky_count, bluesky_entries.
    now rewrite py_sum_ones, bluesky_from_length.
  - repeat split; try (vm_compute; reflexivity).
    apply contains_false. vm_compute. reflexivity.
Qed.

(** ** ContentEnricher: successes and failures *)

Lemma fetch_brings (outcome : http_outcome) (u : string) (cache : gmap string string) :
  cache !! u = None ->
  truthy (fetch_bluesky_content outcome u cache).1.1 = brings_content outcome
  /\ (brings_content outcome = true ->
      exists page content,
        outcome = Response 200 page
        /\ select_content content_selectors page = Some (Some content)
        /\ content <> ""
        /\ (fetch_bluesky_content outcome u cache).1.1 = Some (Str.take 500 content)).
Proof.
  intros Hu. unfold fetch_bluesky_content, brings_content. rewrite Hu.
  destruct outcome as [|status page]; [split; [reflexivity | discriminate] |].
  destruct (Z.eqb_spec status 200%Z) as [-> | Hne]; [| split; [reflexivity | discriminate]].
  destruct (select_content content_selectors page) as [[[|c r]|]|] eqn:Hs;
    try (split; [reflexivity | discriminate]).
  split; [reflexivity |]. intros _. exists page, (String c r).
  split; [reflexivity |]. split; [exact Hs |]. split; [discriminate | reflexivity].
Qed.

Lemma brings_content_false (outcome : http_outcome) :
  brings_content outcome = false <-> fetch_fails outcome \/ empty_text outcome.
Proof.
  unfold brings_content. destruct outcome as [|status page].
  - split; [intros _; left; exact I | reflexivity].
  - destruct (Z.eqb_spec status 200%Z) as [-> | Hne]; cbn [andb].
    + destruct (select_content content_selectors page) as [[[|c r]|]|] eqn:Hs.
      * split; [intros _ | reflexivity]. right. exists page. auto.
      * split; [discriminate |]. intros [Hf | (pg & Heq & Hpg)].
        -- unfold fetch_fails in Hf. rewrite Hs in Hf.
           destruct Hf as [Hf | [Hf | Hf]]; congruence.
        -- inversion Heq; subst pg. rewrite Hs in Hpg. discriminate.
      * split; [intros _ | reflexivity]. left. unfold fetch_fails. rewrite Hs. auto.
      * split; [intros _ | reflexivity]. left. unfold fetch_fails. rewrite Hs. auto.
    + split; [intros _ | reflexivity]. left. unfold fetch_fails. now left.
Qed.

Lemma gather_from_truthy (net : nat -> http_outcome) (k : nat)
    (cache0 cache : gmap string string) (urls : list string) :
  (forall u, u ∈ urls -> cache0 !! u = None) ->
  map truthy (gather_from net k cache0 urls cache).1
  = map (fun j => brings_content (net j)) (seq k (length urls)).
Proof.
  revert k cache; induction urls as [|u urls IH]; intros k cache Hmiss; [reflexivity |].
  simpl. destruct (fetch_bluesky_content (net k) u cache0) as [[content cache_u] trace] eqn:Hf.
  specialize (IH (S k) (match cache_u !! u with Some c => <[u:=c]> cache | None => cache end)).
  destruct (gather_from net (S k) cache0 urls _) as [contents cache'']. simpl in *.
  rewrite IH by (intros v Hv; apply Hmiss; now apply list_elem_of_further).
  f_equal. pose proof (proj1 (fetch_brings (net k) u cache0
                                (Hmiss u (list_elem_of_here u urls)))) as Ht.
  now rewrite Hf in Ht.
Qed.

Lemma filter_map_length {A : Type} (f : A -> bool) (l : list A) :
  length (List.filter f l) = length (List.filter (fun b : bool => b) (map f l)).
Proof.
  induction l as [|x l IH]; simpl; [reflexivity |].
  destruct (f x); simpl; now rewrite IH.
Qed.

Lemma omap_lookup_total {A B : Type} (f : A -> option B) (l : list A) (k : nat) :
  Forall (fun x => is_Some (f x)) l -> omap f l !! k = l !! k ≫= f.
Proof.
  intros Hall; revert k; induction Hall as [|x l [y Hy] Hall IH]; intros k; [reflexivity |].
  cbn. rewrite Hy. destruct k as [|k]; simpl; [now rewrite Hy | apply IH].
Qed.

Lemma task_urls_lookup (p : DiaryProcessor) (k i : nat) (e : NewsEntry) :
  bluesky_entries (entries p) !! k = Some i -> entries p !! i = Some e ->
  task_urls p !! k = Some (url e).
Proof.
  intros Hk He. unfold task_urls. rewrite omap_lookup_total.
  - rewrite Hk. simpl. now rewrite He.
  - apply Forall_forall. intros j Hj. unfold bluesky_entries in Hj.
    apply bluesky_from_lookup in Hj as (e' & _ & He' & _).
    rewrite Nat.sub_0_r in He'. rewrite He'. now exists (url e').
Qed.

(** C6, as stated, fails: on this run the one target is fetched with
    status 200 and a matched container, so none of the listed failures
    occurs (N = 1, M = 0), yet the container's text is empty and no entry
    gains a snippet: 0 entries, not N - M = 1. *)
Lemma enrichment_empty_text_gains_nothing :
  (forall k, ~ fetch_fails (empty_text_net k))
  /\ exists p, process empty_text_net bare_post_lines = Ok p
               /\ length (bluesky_entries (entries p)) = 1%nat
               /\ length (List.filter has_snippet (entries p)) = 0%nat
               /\ map themes (entries p) = [["government"]]
               /\ length (List.filter has_snippet (entries p))
                  <> (length (bluesky_entries (entries p)) - 0)%nat.
Proof.
  split.
  - intros k. unfold empty_text_net, fetch_fails. intros [Hs | [Hs | Hs]];
      [now apply Hs | vm_compute in Hs; discriminate | vm_compute in Hs; discriminate].
  - eexists. split; [vm_compute; reflexivity |]. repeat split. discriminate.
Qed.

(** C6 (amended): in a run whose entries carry no snippet yet and whose
    cache holds none of the target URLs, let N be the number of targets
    and M the number of them whose request brings no text back: it fails
    (exception, status other than 200, no selector finding an element, an
    element without content) or the first element found has an empty text.
    Exactly N-M entries gain a snippet. Each of the M keeps its themes,
    keywords and absent snippet; each of the others gets as snippet the
    first 500 characters of the content and as tags the themes and
    keywords computed from its URL, title and that snippet; entries that
    are not targets are left as they were. *)
Theorem enrichment_counts `{PyRuntime} (net : nat -> http_outcome) (p : DiaryProcessor) :
  Forall (fun e => content_snippet e = None) (entries p) ->
  (forall u, u ∈ task_urls p -> bluesky_content_cache p !! u = None) ->
  let targets := bluesky_entries (entries p) in
  let N := length targets in
  let M := length (List.filter (fun k => negb (brings_content (net k))) (seq 0 N)) in
  let p' := process_bluesky_entries net p in
  (forall outcome,
     brings_content outcome = false <-> fetch_fails outcome \/ empty_text outcome)
  /\ length (List.filter has_snippet (entries p')) = (N - M)%nat
  /\ (forall k i, targets !! k = Some i ->
        exists e, entries p !! i = Some e
          /\ (brings_content (net k) = false -> entries p' !! i = Some e)
          /\ (brings_content (net k) = true ->
              exists e' page content,
                net k = Response 200 page
                /\ select_content content_selectors page = Some (Some content)
                /\ content <> ""
                /\ entries p' !! i = Some e'
                /\ same_article e e'
                /\ content_snippet e' = Some (Str.take 500 content)
                /\ themes e'
                   = top_themes (score_themes
                       (content_score
                          (Str.lower (url e +:+ " " +:+ title e +:+ " "
                                      +:+ Str.take 500 content))
                          (Str.take 500 content)))
                /\ keywords e'
                   = top_keywords (Str.lower (url e +:+ " " +:+ title e +:+ " "
                                              +:+ Str.take 500 content))))
  /\ (forall i e, entries p !! i = Some e -> is_bluesky e = false ->
        entries p' !! i = Some e).
Proof.
  intros Hnone Hmiss targets N M p'. subst targets N M p'.
  pose proof (task_contents_length net p) as Hlen.
  assert (Hurls : length (task_urls p) = length (bluesky_entries (entries p))).
  { rewrite <- Hlen. unfold task_contents, gather. now rewrite gather_from_length. }
  assert (Htruthy : map truthy (task_contents net p)
                    = map (fun j => brings_content (net j))
                          (seq 0 (length (bluesky_entries (entries p))))).
  { unfold task_contents, gather. rewrite gather_from_truthy by exact Hmiss.
    now rewrite Hurls. }
  rewrite process_bluesky_entries_entries.
  split; [apply brings_content_false | split; [| split]].
  - rewrite enrich_all_count; [| exact Hnone |].
    + rewrite filter_map_length, Htruthy, <- filter_map_length.
      pose proof (List.filter_length (fun k => brings_content (net k))
                    (seq 0 (length (bluesky_entries (entries p))))) as Hsplit.
      rewrite length_seq in Hsplit. lia.
    + rewrite Hlen. unfold bluesky_entries. apply bluesky_from_length.
  - intros k i Hk.
    assert (Hc : exists c, task_contents net p !! k = Some c).
    { apply lookup_lt_is_Some. rewrite Hlen. now apply lookup_lt_Some in Hk. }
    destruct Hc as [c Hc].
    destruct (enrich_all_target (entries p) (task_contents net p) 0 k i c Hk Hc)
      as (e & _ & He & He').
    rewrite Nat.sub_0_r in He, He'. exists e. split; [exact He |].
    pose proof (task_urls_lookup p k i e Hk He) as Hu.
    assert (Hcu : bluesky_content_cache p !! url e = None).
    { apply Hmiss. now apply list_elem_of_lookup_2 in Hu. }
    assert (Hck : c = (fetch_bluesky_content (net k) (url e) (bluesky_content_cache p)).1.1).
    { unfold task_contents, gather in Hc.
      rewrite (gather_from_lookup net 0 _ _ _ k (url e) Hu) in Hc. now inversion Hc. }
    destruct (fetch_brings (net k) (url e) (bluesky_content_cache p) Hcu) as [Ht Hb].
    rewrite <- Hck in Ht, Hb. rewrite He'. split.
    + intros Hfalse. rewrite Hfalse in Ht.
      destruct (enrich_entry_cases c e) as [[_ ->] | (text & _ & Htrue & _)];
        [reflexivity | congruence].
    + intros Htrue. destruct (Hb Htrue) as (page & content & Hnet & Hsel & Hne & ->).
      eexists. exists page, content. repeat split; try eassumption; try reflexivity.
      * destruct content as [|a r]; [contradiction | reflexivity].
      * destruct content as [|a r]; [contradiction | reflexivity].
      * destruct content as [|a r]; [contradiction | reflexivity].
      * destruct content as [|a r]; [contradiction | reflexivity].
      * destruct content as [|a r]; [contradiction | reflexivity].
      * destruct content as [|a r]; [contradiction | reflexivity].
      * destruct content as [|a r]; [contradiction | reflexivity].
  - intros i e He Hb. now apply enrich_all_other.
Qed.

Lemma enrichment_counts_witness :
  Forall (fun e => content_snippet e = None) (entries sample_processor)
  /\ (forall u, u ∈ task_urls sample_processor ->
                bluesky_content_cache sample_processor !! u = None)
  /\ length (bluesky_entries (entries sample_processor)) = 2%nat
  /\ length (List.filter (fun k => negb (brings_content (sample_net k))) (seq 0 2)) = 1%nat
  /\ length (List.filter has_snippet
               (entries (process_bluesky_entries sample_net sample_processor)))
     = (length (bluesky_entries (entries sample_processor))
        - length (List.filter (fun k => negb (brings_content (sample_net k)))
                    (seq 0 (length (bluesky_entries (entries sample_processor))))))%nat.
Proof.
  assert (Hnone : Forall (fun e => content_snippet e = None) (entries sample_processor)).
  { repeat constructor. }
  assert (Hmiss : forall u, u ∈ task_urls sample_processor ->
                            bluesky_content_cache sample_processor !! u = None).
  { intros u _. reflexivity. }
  split; [exact Hnone |]. split; [exact Hmiss |].
  split; [vm_compute; reflexivity |]. split; [vm_compute; reflexivity |].
  exact (proj1 (proj2 (enrichment_counts sample_net sample_processor Hnone Hmiss))).
Defined.

(** C5: the tags of an entry after the enriched pass are the themes and
    keywords computed from its URL, title and fetched content, whatever
    tags it had before; nothing of the earlier tags is kept or merged. So
    it is for every entry of a run whose fetch brought content back. *)
Theorem enrichment_replaces_tags `{PyRuntime} :
  (forall entry content themes0 keywords0,
     let combined_text :=
       Str.lower (url entry +:+ " " +:+ title entry +:+ " " +:+ content) in
     let e' := tag_entry_with_content
                 (set_keywords (set_themes entry themes0) keywords0) content in
     themes e' = top_themes (score_themes (content_score combined_text content))
     /\ keywords e' = top_keywords combined_text)
  /\ (forall net p k i text,
        bluesky_entries (entries p) !! k = Some i ->
        task_contents net p !! k = Some (Some text) -> text <> "" ->
        exists e e',
          entries p !! i = Some e
          /\ entries (process_bluesky_entries net p) !! i = Some e'
          /\ themes e'
             = top_themes (score_themes
                 (content_score (Str.lower (url e +:+ " " +:+ title e +:+ " " +:+ text)) text))
          /\ keywords e'
             = top_keywords (Str.lower (url e +:+ " " +:+ title e +:+ " " +:+ text))
          /\ content_snippet e' = Some text).
Proof.
  split.
  - intros entry content themes0 keywords0. split; reflexivity.
  - intros net p k i text Hk Hc Htext.
    rewrite process_bluesky_entries_entries.
    destruct (enrich_all_target (entries p) (task_contents net p) 0 k i (Some text) Hk Hc)
      as (e & _ & He & He').
    rewrite Nat.sub_0_r in He, He'. exists e. eexists. split; [exact He |].
    split; [exact He' |]. destruct text as [|a r]; [contradiction |].
    repeat split; reflexivity.
Qed.

Lemma enrichment_replaces_tags_witness :
  exists e',
    entries (process_bluesky_entries sample_net sample_processor) !! 0%nat = Some e'
    /\ themes e' = ["science"; "justice"] /\ keywords e' = ["nasa"].
Proof.
  destruct (proj2 enrichment_replaces_tags sample_net sample_processor 0%nat 0%nat
              "NASA research upheld in court")
    as (e & e' & He & He' & Hth & Hkw & _).
  - vm_compute; reflexivity.
  - vm_compute; reflexivity.
  - discriminate.
  - exists e'. split; [exact He' |].
    assert (e = mkNewsEntry 1 "https://bsky.app/profile/a.example/post/1" "A post" None
                  ["government"] [] None) as -> by (vm_compute in He; congruence).
    rewrite Hth, Hkw. split; vm_compute; reflexivity.
Defined.

(** ** Classifier: the default theme *)

Lemma filter_none {A : Type} (f : A -> bool) (l : list A) :
  (forall x, x ∈ l -> f x = false) -> List.filter f l = [].
Proof.
  induction l as [|x l IH]; intros Hall; simpl; [reflexivity |].
  rewrite (Hall x) by apply list_elem_of_here.
  apply IH. intros y Hy. apply Hall. now apply list_elem_of_further.
Qed.

(** When no pattern of any theme occurs in the text scored, no theme
    scores, whichever of the two weightings is used. *)
Lemma no_match_no_score (text : string) (weight : string -> nat) :
  (forall theme patterns pattern,
     (theme, patterns) ∈ THEMES -> pattern ∈ patterns -> ~ occurs pattern text) ->
  score_themes (fun patterns =>
                  py_sum (map weight
                              (List.filter (fun pattern => Str.contains pattern text) patterns)))
  = [].
Proof.
  intros Hno. rewrite score_themes_scored. unfold scored. apply filter_none.
  intros [theme n] Hin. apply list_elem_of_fmap in Hin as ([t ps] & Heq & Hin).
  inversion Heq; subst; simpl.
  rewrite filter_none; [reflexivity |].
  intros pattern Hp. apply contains_false. now apply (Hno t ps).
Qed.

Section DefaultTheme.
Context `{PyRuntime}.

(** Initial tagging falls back on the default theme of the domain. *)
Lemma tag_entry_default (entry : NewsEntry) :
  (forall theme patterns pattern,
     (theme, patterns) ∈ THEMES -> pattern ∈ patterns ->
     ~ occurs pattern (Str.lower (url entry +:+ " " +:+ title entry))) ->
  match urlparse_netloc (url entry) with
  | Some domain =>
      exists e', tag_entry entry = Ok e' /\ themes e' = default_themes domain
  | None => tag_entry entry = Raise ValueError
  end.
Proof.
  intros Hno. pose proof (tag_entry_cases entry) as Hc. simpl in Hc.
  unfold theme_score in Hc.
  rewrite (no_match_no_score _ (fun _ => 1%nat) Hno) in Hc. simpl in Hc.
  destruct (urlparse_netloc (url entry)) as [domain|]; [| exact Hc].
  eexists; split; [exact Hc | reflexivity].
Qed.

(** The enriched pass has no such fallback: it leaves no theme at all. *)
Lemma tag_entry_with_content_no_default (entry : NewsEntry) (content : string) :
  (forall theme patterns pattern,
     (theme, patterns) ∈ THEMES -> pattern ∈ patterns ->
     ~ occurs pattern
         (Str.lower (url entry +:+ " " +:+ title entry +:+ " " +:+ content))) ->
  themes (tag_entry_with_content entry content) = [].
Proof.
  intros Hno. unfold tag_entry_with_content; simpl. unfold content_score.
  now rewrite (no_match_no_score _ _ Hno).
Qed.

End DefaultTheme.

(** C2 fails on the enriched pass. On this run the one entry, a Bluesky
    post whose URL, title and fetched text match no theme pattern, leaves
    initial tagging with the default theme [government]; the enriched pass
    then overwrites its themes with the empty list and assigns no
    default. *)
Theorem retag_drops_default_theme :
  (exists e, tag_all (parse_input_file bare_post_lines) = Ok [e]
             /\ themes e = ["government"])
  /\ (exists p e, process bare_post_net bare_post_lines = Ok p
                  /\ entries p = [e]
                  /\ content_snippet e = Some "good morning"
                  /\ themes e = []).
Proof.
  split.
  - eexists. split; [vm_compute; reflexivity | reflexivity].
  - eexists. eexists. split; [vm_compute; reflexivity |].
    split; [reflexivity |]. split; reflexivity.
Qed.

(** ** The theme summary *)

(** Every theme of the taxonomy has its description in [THEME_INFO]. *)
Lemma THEME_INFO_covers_THEMES (theme : string) :
  theme ∈ map fst THEMES -> is_Some (dict_get THEME_INFO theme).
Proof.
  assert (Hall : Forall (fun t => is_Some (dict_get THEME_INFO t)) (map fst THEMES)).
  { repeat (constructor; [vm_compute; eauto |]). constructor. }
  rewrite Forall_forall in Hall. apply Hall.
Qed.

Lemma generate_fallback_summary_returns (theme : string) (l : list NewsEntry) :
  is_Some (dict_get THEME_INFO theme) ->
  exists fallback, generate_fallback_summary theme l = Ok fallback.
Proof.
  intros [info Hinfo]. unfold generate_fallback_summary. rewrite Hinfo.
  eexists. reflexivity.
Qed.

(** C8: for a theme of the taxonomy and the entries of a dataset, the
    summary operation returns a text whatever the credential and the remote
    service do; without a credential, on a response whose status is not 200
    and on an exception of the request, the text is the one
    [generate_fallback_summary] computes from the theme and the entries. *)
Theorem summary_never_fails (claude_api_key : option string)
    (api : string -> api_outcome) (theme : string) (l : list NewsEntry) :
  theme ∈ map fst THEMES ->
  exists fallback summary info,
    dict_get THEME_INFO theme = Some info
    /\ generate_fallback_summary theme l = Ok fallback
    /\ generate_theme_summary_with_claude claude_api_key api theme l = Ok summary
    /\ (no_key claude_api_key = true -> summary = fallback)
    /\ (api (build_prompt info l) = ApiFailed -> summary = fallback)
    /\ (forall status body,
          api (build_prompt info l) = ApiResponse status body -> status <> 200%Z ->
          summary = fallback).
Proof.
  intros Hin. pose proof (THEME_INFO_covers_THEMES theme Hin) as Hsome.
  destruct (generate_fallback_summary_returns theme l Hsome) as [fallback Hfb].
  destruct Hsome as [info Hinfo].
  unfold generate_theme_summary_with_claude. rewrite Hinfo, Hfb.
  destruct (no_key claude_api_key) eqn:Hkey.
  - exists fallback, fallback, info. repeat split; auto.
  - destruct (api (build_prompt info l)) as [|status body] eqn:Hapi.
    + exists fallback, fallback, info. repeat split; auto.
    + destruct (Z.eqb_spec status 200%Z) as [-> | Hne].
      * destruct body as [text|].
        -- exists fallback, text, info. repeat split; auto; intros; congruence.
        -- exists fallback, fallback, info. repeat split; auto.
      * exists fallback, fallback, info. repeat split; auto.
Qed.

Lemma summary_never_fails_witness :
  "science" ∈ map fst THEMES
  /\ exists summary,
       generate_theme_summary_with_claude None (fun _ => ApiFailed) "science"
         (entries sample_processor) = Ok summary.
Proof.
  assert (Hin : "science" ∈ map fst THEMES) by (vm_compute; apply list_elem_of_here).
  split; [exact Hin |].
  destruct (summary_never_fails None (fun _ => ApiFailed) "science"
              (entries sample_processor) Hin)
    as (fallback & summary & info & _ & _ & Hs & _).
  exists summary. exact Hs.
Defined.

(** * Further properties of the code *)

(** ** Tagging: where the tags come from *)

Lemma top_themes_subset (theme_scores : list (string * nat)) (t : string) :
  t ∈ top_themes theme_scores -> t ∈ map fst theme_scores.
Proof.
  unfold top_themes. intros Ht.
  apply list_elem_of_fmap in Ht as (x & -> & Hx).
  apply list_elem_of_fmap. exists x. split; [reflexivity |].
  apply elem_of_take in Hx as (i & Hi & _). apply list_elem_of_lookup_2 in Hi.
  now rewrite (sorted_desc_perm snd theme_scores) in Hi.
Qed.

Lemma score_themes_keys (score : list string -> nat) (t : string) :
  t ∈ map fst (score_themes score) -> t ∈ map fst THEMES.
Proof. rewrite score_themes_scored. apply scored_keys. Qed.

Lemma keyword_fold (text : string) (table : list (string * list string))
    (acc : list string) :
  fold_left (fun (matches : list string) kp =>
               let '(keyword, patterns) := kp in
               if any_pattern_in text patterns then (matches ++ [keyword])%list else matches)
            table acc
  = (acc ++ map fst (List.filter (fun kp => any_pattern_in text kp.2) table))%list.
Proof.
  revert acc; induction table as [|[k ps] table IH]; intros acc; simpl.
  - now rewrite app_nil_r.
  - rewrite IH. destruct (any_pattern_in text ps); simpl; [now rewrite <- app_assoc | reflexivity].
Qed.

(** The loop over [KEYWORD_PATTERNS] keeps, in declaration order, the
    keywords one of whose patterns is found. *)
Lemma keyword_matches_filter (text : string) :
  keyword_matches text
  = map fst (List.filter (fun kp => any_pattern_in text kp.2) KEYWORD_PATTERNS).
Proof. unfold keyword_matches. now rewrite keyword_fold. Qed.

Lemma any_pattern_in_occurs (text : string) (patterns : list string) :
  any_pattern_in text patterns = true
  <-> exists pattern, pattern ∈ patterns /\ occurs pattern text.
Proof.
  induction patterns as [|p ps IH]; simpl.
  - split; [discriminate |]. intros (p & Hp & _). now apply elem_of_nil in Hp.
  - destruct (Str.contains p text) eqn:E.
    + split; [intros _ | reflexivity]. exists p.
      split; [apply list_elem_of_here | now apply contains_occurs].
    + rewrite IH. split.
      * intros (q & Hq & Ho). exists q. split; [now apply list_elem_of_further | exact Ho].
      * intros (q & Hq & Ho). apply elem_of_cons in Hq as [-> | Hq].
        -- apply contains_occurs in Ho. congruence.
        -- now exists q.
Qed.

Lemma keyword_filter_elem (text k : string) (table : list (string * list string)) :
  k ∈ map fst (List.filter (fun kp => any_pattern_in text kp.2) table)
  <-> exists patterns pattern,
        (k, patterns) ∈ table /\ pattern ∈ patterns /\ occurs pattern text.
Proof.
  rewrite list_elem_of_fmap. split.
  - intros ([k' ps] & Hk & Hin). cbn [fst] in Hk. subst k'.
    rewrite list_elem_of_In in Hin. apply List.filter_In in Hin as [Hin Hany].
    cbn [snd] in Hany. apply any_pattern_in_occurs in Hany as (p & Hp & Ho).
    exists ps, p. rewrite list_elem_of_In. auto.
  - intros (ps & p & Hin & Hp & Ho). exists (k, ps). split; [reflexivity |].
    rewrite list_elem_of_In. apply List.filter_In. rewrite <- list_elem_of_In.
    split; [exact Hin |]. cbn [snd]. apply any_pattern_in_occurs. now exists p.
Qed.

Lemma keyword_matches_elem (text k : string) :
  k ∈ keyword_matches text
  <-> exists patterns pattern,
        (k, patterns) ∈ KEYWORD_PATTERNS /\ pattern ∈ patterns /\ occurs pattern text.
Proof. rewrite keyword_matches_filter. apply keyword_filter_elem. Qed.

Lemma KEYWORD_PATTERNS_keys_NoDup : NoDup (map fst KEYWORD_PATTERNS).
Proof. apply (bool_decide_unpack _). vm_compute. reflexivity. Qed.

Lemma NoDup_map_fst_filter {V : Type} (f : string * V -> bool) (l : list (string * V)) :
  NoDup (map fst l) -> NoDup (map fst (List.filter f l)).
Proof.
  induction l as [|x l IH]; simpl; intros Hnd; [constructor |].
  apply NoDup_cons in Hnd as [Hx Hnd]. destruct (f x); simpl; [| now apply IH].
  apply NoDup_cons. split; [| now apply IH].
  intros Hin. apply Hx. apply list_elem_of_fmap in Hin as (y & Hy & Hin).
  apply list_elem_of_fmap. exists y. split; [exact Hy |].
  rewrite list_elem_of_In in *. now apply List.filter_In in Hin as [Hin _].
Qed.

Lemma keyword_matches_NoDup (text : string) : NoDup (keyword_matches text).
Proof.
  rewrite keyword_matches_filter. apply NoDup_map_fst_filter, KEYWORD_PATTERNS_keys_NoDup.
Qed.

Lemma keyword_matches_keys (text k : string) :
  k ∈ keyword_matches text -> k ∈ map fst KEYWORD_PATTERNS.
Proof.
  intros Hk. apply keyword_matches_elem in Hk as (ps & _ & Hin & _).
  apply list_elem_of_fmap. now exists (k, ps).
Qed.

Section TaxonomyFacts.
Context `{PyRuntime}.

Lemma top_keywords_subset (text k : string) :
  k ∈ top_keywords text -> k ∈ keyword_matches text.
Proof.
  unfold top_keywords. intros Hk. apply elem_of_take in Hk as (i & Hi & _).
  apply list_elem_of_lookup_2 in Hi. exact (proj1 (set_iter_elem _ _) Hi).
Qed.

Lemma set_iter_perm (l : list string) : NoDup l -> set_iter l ≡ₚ l.
Proof.
  intros Hnd. apply NoDup_Permutation; [apply set_iter_NoDup | exact Hnd |].
  apply set_iter_elem.
Qed.

Lemma top_keywords_length (text : string) :
  length (top_keywords text) = (3 `min` length (keyword_matches text))%nat.
Proof.
  unfold top_keywords. rewrite length_take.
  now rewrite (set_iter_perm _ (keyword_matches_NoDup text)).
Qed.

Lemma default_themes_in_taxonomy (domain t : string) :
  t ∈ default_themes domain -> t ∈ map fst THEMES.
Proof.
  destruct (default_themes_cases domain) as [-> | ->]; intros Ht;
    apply list_elem_of_singleton in Ht; subst; vm_compute;
    repeat (first [apply list_elem_of_here | apply list_elem_of_further]).
Qed.

Lemma tag_entry_with_content_in_taxonomy (entry : NewsEntry) (content : string) :
  in_taxonomy (tag_entry_with_content entry content).
Proof.
  unfold in_taxonomy, tag_entry_with_content; simpl. split.
  - intros t Ht. now apply top_themes_subset, score_themes_keys in Ht.
  - intros k Hk. now apply top_keywords_subset, keyword_matches_keys in Hk.
Qed.

Lemma tag_entry_in_taxonomy (entry e' : NewsEntry) :
  tag_entry entry = Ok e' -> in_taxonomy e'.
Proof.
  pose proof (tag_entry_cases entry) as Hc. simpl in Hc. intros He'.
  set (text := Str.lower (url entry +:+ " " +:+ title entry)) in *.
  assert (Hkw : forall k, k ∈ top_keywords text -> k ∈ map fst KEYWORD_PATTERNS).
  { intros k Hk. now apply top_keywords_subset, keyword_matches_keys in Hk. }
  assert (Hth : forall t, t ∈ top_themes (score_themes (theme_score text)) ->
                          t ∈ map fst THEMES).
  { intros t Ht. now apply top_themes_subset, score_themes_keys in Ht. }
  destruct (top_themes (score_themes (theme_score text))) as [|t0 ts].
  - destruct (urlparse_netloc (url entry)) as [domain|]; rewrite Hc in He';
      [| discriminate].
    inversion He'; subst. split; simpl; [apply default_themes_in_taxonomy | exact Hkw].
  - rewrite Hc in He'. inversion He'; subst. split; simpl; [exact Hth | exact Hkw].
Qed.

End TaxonomyFacts.

(** ** Runs: what tagging and enrichment do entry by entry *)

Section RunShape.
Context `{PyRuntime}.

Lemma tag_all_Forall2 (l l' : list NewsEntry) :
  tag_all l = Ok l' -> Forall2 (fun e e' => tag_entry e = Ok e') l l'.
Proof.
  revert l'; induction l as [|e l IH]; intros l' Hl; simpl in Hl.
  - inversion Hl. constructor.
  - destruct (tag_entry e) as [e'|x] eqn:He; [| discriminate].
    destruct (tag_all l) as [r'|x]; [| discriminate].
    inversion Hl; subst. constructor; [exact He | now apply IH].
Qed.

Lemma tag_all_Forall (P : NewsEntry -> Prop) (l l' : list NewsEntry) :
  (forall e e', tag_entry e = Ok e' -> P e') -> tag_all l = Ok l' -> Forall P l'.
Proof.
  intros HP Hl. apply tag_all_Forall2 in Hl.
  induction Hl as [|e e' l l' He _ IH]; constructor; [now apply (HP e) | exact IH].
Qed.

Lemma enrich_all_Forall (P : NewsEntry -> Prop) (l : list NewsEntry)
    (contents : list (option string)) :
  (forall e c, c ∈ contents -> is_bluesky e = true -> P e -> P (enrich_entry c e)) ->
  Forall P l -> Forall P (enrich_all l contents).
Proof.
  intros HP Hall; revert contents HP; induction Hall as [|e l He Hall IH];
    intros contents HP; simpl; [constructor |].
  destruct (is_bluesky e) eqn:Hb.
  - destruct contents as [|c cs]; [now constructor |].
    constructor.
    + apply HP; [apply list_elem_of_here | exact Hb | exact He].
    + apply IH. intros e0 c0 Hc0. apply HP. now apply list_elem_of_further.
  - constructor; [exact He | now apply IH].
Qed.

End RunShape.

(** X1: every theme and every keyword that tagging assigns is a key of
    [THEMES], respectively of [KEYWORD_PATTERNS]: after [tag_entry], after
    [tag_entry_with_content], and for every entry at the end of a run. *)
Theorem tags_in_taxonomy `{PyRuntime} :
  (forall entry, match tag_entry entry with
                 | Ok e' => in_taxonomy e'
                 | Raise _ => True
                 end)
  /\ (forall entry content, in_taxonomy (tag_entry_with_content entry content))
  /\ (forall net lines, match process net lines with
                        | Ok p => Forall in_taxonomy (entries p)
                        | Raise _ => True
                        end).
Proof.
  split; [| split].
  - intros entry. destruct (tag_entry entry) as [e'|x] eqn:He; [| exact I].
    now apply (tag_entry_in_taxonomy entry).
  - apply tag_entry_with_content_in_taxonomy.
  - intros net lines. unfold process.
    destruct (tag_all (parse_input_file lines)) as [l|x] eqn:Hl; [| exact I].
    rewrite process_bluesky_entries_entries. apply enrich_all_Forall.
    + intros e c _ _ He.
      destruct (enrich_entry_cases c e) as [[_ ->] | (text & _ & _ & ->)];
        [exact He | apply tag_entry_with_content_in_taxonomy].
    + apply (tag_all_Forall in_taxonomy (parse_input_file lines)); [| exact Hl].
      apply tag_entry_in_taxonomy.
Qed.

(** ** Tagging: keywords, and tagging twice *)

Section TaggingTwice.
Context `{PyRuntime}.

Lemma tag_entry_keywords (entry e' : NewsEntry) :
  tag_entry entry = Ok e' ->
  keywords e' = top_keywords (Str.lower (url entry +:+ " " +:+ title entry)).
Proof.
  pose proof (tag_entry_cases entry) as Hc. cbv zeta in Hc. intros He'.
  destruct (top_themes _) as [|t0 ts].
  - destruct (urlparse_netloc (url entry)) as [domain|]; rewrite Hc in He';
      [| discriminate].
    now inversion He'.
  - rewrite Hc in He'. now inversion He'.
Qed.

(** [tag_entry] reads the URL and the title only. *)
Lemma tag_entry_ignores_tags (e : NewsEntry) (t k : list string) :
  tag_entry (mkNewsEntry (id e) (url e) (title e) (date e) t k (content_snippet e))
  = tag_entry e.
Proof. destruct e. reflexivity. Qed.

Lemma tag_entry_shape (entry e' : NewsEntry) :
  tag_entry entry = Ok e' ->
  e' = mkNewsEntry (id entry) (url entry) (title entry) (date entry)
                   (themes e') (keywords e') (content_snippet entry).
Proof.
  pose proof (tag_entry_cases entry) as Hc. cbv zeta in Hc. intros He'.
  destruct (top_themes _) as [|t0 ts].
  - destruct (urlparse_netloc (url entry)) as [domain|]; rewrite Hc in He';
      [| discriminate].
    now inversion He'.
  - rewrite Hc in He'. now inversion He'.
Qed.

End TaggingTwice.

(** X2: the keywords [tag_entry] assigns are keywords one of whose patterns
    occurs in the lower-cased [url title] text; there are as many of them
    as match, up to three, so when at most three keywords match, all of
    them are assigned. *)
Theorem keywords_are_the_matches `{PyRuntime} (entry : NewsEntry) :
  (forall k, k ∈ keyword_matches (Str.lower (url entry +:+ " " +:+ title entry))
             <-> exists patterns pattern,
                   (k, patterns) ∈ KEYWORD_PATTERNS /\ pattern ∈ patterns
                   /\ occurs pattern (Str.lower (url entry +:+ " " +:+ title entry)))
  /\ match tag_entry entry with
     | Ok e' =>
         (forall k, k ∈ keywords e' ->
                    k ∈ keyword_matches (Str.lower (url entry +:+ " " +:+ title entry)))
         /\ length (keywords e')
            = (3 `min` length (keyword_matches
                                 (Str.lower (url entry +:+ " " +:+ title entry))))%nat
         /\ ((3 < length (keyword_matches
                            (Str.lower (url entry +:+ " " +:+ title entry))))%nat
             \/ keywords e'
                ≡ₚ keyword_matches (Str.lower (url entry +:+ " " +:+ title entry)))
     | Raise _ => True
     end.
Proof.
  set (text := Str.lower (url entry +:+ " " +:+ title entry)).
  split; [intros k; apply keyword_matches_elem |].
  destruct (tag_entry entry) as [e'|x] eqn:He; [| exact I].
  rewrite (tag_entry_keywords entry e' He). fold text.
  split; [apply top_keywords_subset | split; [apply top_keywords_length |]].
  destruct (le_lt_dec (length (keyword_matches text)) 3) as [Hle | Hlt]; [right | now left].
  unfold top_keywords. rewrite take_ge.
  - apply set_iter_perm, keyword_matches_NoDup.
  - now rewrite (set_iter_perm _ (keyword_matches_NoDup text)).
Qed.

(** X3: tagging reads the URL and the title and writes the themes and
    keywords only: [id], [url], [title], [date] and the snippet are left as
    they were, and tagging an entry a second time changes nothing. So it
    is for the enriched pass with the same content. *)
Theorem tagging_twice_changes_nothing `{PyRuntime} (entry : NewsEntry) (content : string) :
  match tag_entry entry with
  | Ok e' =>
      tag_entry e' = Ok e' /\ same_article entry e'
      /\ content_snippet e' = content_snippet entry
  | Raise x => forall t k, tag_entry (set_keywords (set_themes entry t) k) = Raise x
  end
  /\ tag_entry_with_content (tag_entry_with_content entry content) content
     = tag_entry_with_content entry content
  /\ same_article entry (tag_entry_with_content entry content)
  /\ content_snippet (tag_entry_with_content entry content) = content_snippet entry.
Proof.
  split; [| repeat split].
  destruct (tag_entry entry) as [e'|x] eqn:He.
  - pose proof (tag_entry_shape entry e' He) as Hshape.
    split; [| rewrite Hshape; repeat split].
    rewrite Hshape at 1. rewrite tag_entry_ignores_tags. exact He.
  - intros t k. rewrite <- He. apply (tag_entry_ignores_tags entry).
Qed.

(** ** Tagging: the enriched score *)

Lemma lower_app (a b : string) : Str.lower (a +:+ b) = Str.lower a +:+ Str.lower b.
Proof.
  induction a as [|c a IH]; [reflexivity |].
  rewrite append_cons. simpl. now rewrite IH.
Qed.

Lemma occurs_app_l (p a b : string) : occurs p a -> occurs p (a +:+ b).
Proof.
  intros (x & y & ->). exists x, (y +:+ b). now rewrite !append_assoc.
Qed.

Lemma occurs_app_r (p a b : string) : occurs p b -> occurs p (a +:+ b).
Proof.
  intros (x & y & ->). exists (a +:+ x), y. now rewrite !append_assoc.
Qed.

Lemma theme_score_cons (text p : string) (ps : list string) :
  theme_score text (p :: ps)
  = ((if Str.contains p text then 1 else 0) + theme_score text ps)%nat.
Proof.
  unfold theme_score. simpl. destruct (Str.contains p text); [| reflexivity].
  simpl. now rewrite py_sum_cons.
Qed.

Lemma content_score_cons (combined content p : string) (ps : list string) :
  content_score combined content (p :: ps)
  = ((if Str.contains p combined
      then if Str.contains p (Str.lower content) then 2 else 1
      else 0) + content_score combined content ps)%nat.
Proof.
  unfold content_score. simpl. destruct (Str.contains p combined); [| reflexivity].
  simpl. now rewrite py_sum_cons.
Qed.

Lemma theme_score_mono (a b : string) (ps : list string) :
  (forall p, occurs p a -> occurs p b) ->
  (theme_score a ps <= theme_score b ps)%nat.
Proof.
  intros Hab. induction ps as [|p ps IH]; [reflexivity |].
  rewrite !theme_score_cons. destruct (Str.contains p a) eqn:Ha.
  - apply contains_occurs, Hab, contains_occurs in Ha. rewrite Ha. lia.
  - destruct (Str.contains p b); lia.
Qed.

Lemma content_score_split (combined content : string) (ps : list string) :
  (forall p, occurs p (Str.lower content) -> occurs p combined) ->
  content_score combined content ps
  = (theme_score combined ps + theme_score (Str.lower content) ps)%nat.
Proof.
  intros Hin. induction ps as [|p ps IH]; [reflexivity |].
  rewrite content_score_cons, !theme_score_cons, IH.
  destruct (Str.contains p (Str.lower content)) eqn:Hc.
  - apply contains_occurs, Hin, contains_occurs in Hc. rewrite Hc. lia.
  - destruct (Str.contains p combined); lia.
Qed.

Lemma scored_elem (score : list string -> nat) (table : list (string * list string))
    (theme : string) :
  theme ∈ map fst (scored score table)
  <-> exists patterns, (theme, patterns) ∈ table /\ (0 < score patterns)%nat.
Proof.
  unfold scored. induction table as [|[t ps] table IH]; cbn [map List.filter fst snd].
  - split; [intros Hin; now apply elem_of_nil in Hin |].
    intros (ps & Hin & _). now apply elem_of_nil in Hin.
  - destruct (Nat.ltb_spec 0 (score ps)) as [Hpos | Hzero]; cbn [map fst].
    + rewrite elem_of_cons, IH. split.
      * intros [-> | (ps' & Hin & Hp)].
        -- exists ps. split; [apply list_elem_of_here | exact Hpos].
        -- exists ps'. split; [now apply list_elem_of_further | exact Hp].
      * intros (ps' & Hin & Hp). apply elem_of_cons in Hin as [Heq | Hin].
        -- inversion Heq; subst. now left.
        -- right. now exists ps'.
    + rewrite IH. split.
      * intros (ps' & Hin & Hp). exists ps'. split; [now apply list_elem_of_further | exact Hp].
      * intros (ps' & Hin & Hp). apply elem_of_cons in Hin as [Heq | Hin].
        -- inversion Heq; subst. lia.
        -- now exists ps'.
Qed.

(** X4: in the enriched pass the score of a theme is the number of its
    patterns found in the combined text plus the number of them found in
    the content itself: a pattern of the content counts twice, one found
    only in URL or title once. *)
Theorem enriched_score_counts_content_twice (u t content : string)
    (patterns : list string) :
  content_score (Str.lower (u +:+ " " +:+ t +:+ " " +:+ content)) content patterns
  = (theme_score (Str.lower (u +:+ " " +:+ t +:+ " " +:+ content)) patterns
     + theme_score (Str.lower content) patterns)%nat.
Proof.
  apply content_score_split. intros p Hp.
  rewrite !lower_app. now do 4 apply occurs_app_r.
Qed.

(** X5: enrichment never lowers the score of a theme: every theme scores
    in the enriched pass at least what it scored on URL and title, so a
    theme that scored before still scores (it may lose its place among the
    first two). *)
Theorem enrichment_never_lowers_a_score (u t content : string) :
  (forall patterns,
     (theme_score (Str.lower (u +:+ " " +:+ t)) patterns
      <= content_score (Str.lower (u +:+ " " +:+ t +:+ " " +:+ content)) content patterns)%nat)
  /\ (forall theme,
        theme ∈ map fst (score_themes (theme_score (Str.lower (u +:+ " " +:+ t)))) ->
        theme ∈ map fst (score_themes
                           (content_score
                              (Str.lower (u +:+ " " +:+ t +:+ " " +:+ content)) content))).
Proof.
  assert (Hle : forall patterns,
            (theme_score (Str.lower (u +:+ " " +:+ t)) patterns
             <= content_score (Str.lower (u +:+ " " +:+ t +:+ " " +:+ content))
                              content patterns)%nat).
  { intros patterns. rewrite content_score_split.
    - etransitivity; [| apply Nat.le_add_r]. apply theme_score_mono.
      intros p Hp. rewrite !lower_app in *.
      replace (Str.lower u +:+ Str.lower " " +:+ Str.lower t +:+ Str.lower " "
               +:+ Str.lower content)
        with ((Str.lower u +:+ Str.lower " " +:+ Str.lower t)
              +:+ (Str.lower " " +:+ Str.lower content))
        by now rewrite !append_assoc.
      now apply occurs_app_l.
    - intros p Hp. rewrite !lower_app. now do 4 apply occurs_app_r. }
  split; [exact Hle |].
  intros theme. rewrite !score_themes_scored, !scored_elem.
  intros (ps & Hin & Hpos). exists ps. split; [exact Hin |].
  specialize (Hle ps). lia.
Qed.

(** ** The content cache *)





